(** * PyOpenWorm.neuron: neighbor and connection properties of a Neuron

    A shallow embedding of [PyOpenWorm/neuron.py]: the [Neighbor] and
    [ConnectionProperty] properties of a [Neuron], the [NeuronProxy] built by
    [Neuron.contextualize], and the two degree metrics [GJ_degree] and
    [Syn_degree].

    Python objects that are mutated in place (the [_conns] lists of the
    properties) live in a heap of property objects addressed by index.  The
    methods are computations in a state-and-exception monad over a [World]
    made of that heap, the relation store and the log of the queries sent to
    the store.  A generator is modelled by the list it yields when it is run
    to exhaustion. *)

From stdpp Require Import base option list strings.

Local Open Scope string_scope.
Local Open Scope list_scope.

(** ** Values the module handles *)

(** Modelled from the spec: the context class is not part of [neuron.py].
    A context is an opaque scoping identifier; [NoScope] is the sentinel for
    "no context attached". *)
Inductive Context : Type :=
  | NoScope
  | Scope (id : string).

#[global] Instance Context_eq_dec : EqDecision Context.
Proof. solve_decision. Defined.

(** A cell is identified by its name. *)
Definition Cell : Type := string.

(** Modelled from the spec: the [Connection] class ([PyOpenWorm.connection])
    is not part of [neuron.py].  A relation has a "pre" endpoint, a "post"
    endpoint and a [syntype] tag (['gapJunction'], ['send'], ...), and belongs
    to the context of the class that built it.  An endpoint or tag left
    undefined is [None]; a connection with undefined fields is the pattern of
    a store query. *)
Record Connection : Type := mkConnection {
  conn_context : Context;
  pre_cell : option Cell;
  post_cell : option Cell;
  syntype : option string
}.

#[global] Instance Connection_eq_dec : EqDecision Connection.
Proof. solve_decision. Defined.

(** The keyword arguments [kwargs] a caller can hand over to the
    [Connection] constructor. *)
Record Kwargs : Type := mkKwargs {
  kw_pre_cell : option Cell;
  kw_post_cell : option Cell;
  kw_syntype : option string
}.

Definition no_kwargs : Kwargs := mkKwargs None None None.

(** The values that reach the methods of this module or leave them. *)
Inductive PyVal : Type :=
  | VNone
  | VStr (s : string)
  | VCell (c : Cell)
  | VConn (c : Connection).

Inductive PyError : Type :=
  | TypeError
  | AssertionError
  | AttributeError
  | DanglingReference.

Inductive Outcome (A : Type) : Type :=
  | Ok (a : A)
  | Raise (e : PyError).

Arguments Ok {A} a.
Arguments Raise {A} e.

(** The [Connection] class, possibly contextualized: [_conntype]. *)
Record Conntype : Type := mkConntype { ct_context : Context }.

Definition Connection_class : Conntype := mkConntype NoScope.

(** [cls.contextualize(context)] *)
Definition Conntype_contextualize (cls : Conntype) (context : Context) : Conntype :=
  mkConntype context.

(** One keyword of a call that gives [key=explicit] together with the
    dictionary [kwargs]: Python raises [TypeError] when [kwargs] holds [key]
    as well. *)
Definition keyword {A : Type} (explicit from_kwargs : option A) : Outcome (option A) :=
  match explicit, from_kwargs with
  | Some _, Some _ => Raise TypeError
  | Some x, None => Ok (Some x)
  | None, k => Ok k
  end.

(** [cls] called with [pre_cell=pre], [post_cell=post] and [kwargs] *)
Definition Conntype_call (cls : Conntype) (pre post : option Cell) (kwargs : Kwargs)
  : Outcome Connection :=
  match keyword pre (kw_pre_cell kwargs) with
  | Raise e => Raise e
  | Ok pre' =>
      match keyword post (kw_post_cell kwargs) with
      | Raise e => Raise e
      | Ok post' => Ok (mkConnection (ct_context cls) pre' post' (kw_syntype kwargs))
      end
  end.

(** [isinstance(conn, self._conntype)]: every connection is an instance of
    the [Connection] class and of its contextualized versions. *)
Definition isinstance (conn : PyVal) (cls : Conntype) : bool :=
  match conn with
  | VConn _ => true
  | _ => false
  end.

(** Modelled from the spec: [c.post_cell.get()] of the absent [Connection]
    class yields the post endpoints the relation resolves to. *)
Definition post_cell_get (c : Connection) : list PyVal :=
  match post_cell c with
  | Some x => [VCell x]
  | None => []
  end.

(** Modelled from the spec: [r.post_cell()] of the absent [Connection] class
    is the post endpoint of the relation, [None] when it has none. *)
Definition post_cell_call (r : Connection) : PyVal :=
  match post_cell r with
  | Some x => VCell x
  | None => VNone
  end.

(** [c.syntype.one()] *)
Definition syntype_one (c : Connection) : option string := syntype c.

(** A property object: the fields [Neighbor] and [ConnectionProperty] share. *)
Record Property : Type := mkProperty {
  p_name : string;
  p_owner : Cell;
  p_context : Context;
  p_conns : list Connection;
  p_conntype : Conntype
}.

(** [self._conns.append(c)] *)
Definition append_conn (c : Connection) (self : Property) : Property :=
  mkProperty (p_name self) (p_owner self) (p_context self)
             (p_conns self ++ [c]) (p_conntype self).

(** A neuron: its name, its context and the references to its two
    properties, [None] as long as the attribute is not set. *)
Record Neuron : Type := mkNeuron {
  n_name : Cell;
  n_context : Context;
  neighbor : option nat;
  connection : option nat
}.

(** [NeuronProxy(neighbor, connection, wrapped)] *)
Record NeuronProxy : Type := mkNeuronProxy {
  _self_neighbor : nat;
  _self_connection : nat;
  __wrapped__ : Neuron
}.

(** What [Neuron.contextualize] returns. *)
Inductive NeuronView : Type :=
  | Plain (n : Neuron)
  | Proxied (p : NeuronProxy).

(** ** A reference relation store *)

(** Modelled from the spec: [query(pattern, context)] of the Relation Store,
    where the pattern binds any subset of pre, post, kind and context.  A
    store is the list of its persisted relations, in result order. *)
Definition binds {A : Type} `{EqDecision A} (pattern value : option A) : bool :=
  match pattern with
  | None => true
  | Some x => bool_decide (value = Some x)
  end.

Definition in_scope (pattern value : Context) : bool :=
  match pattern with
  | NoScope => true
  | Scope _ => bool_decide (value = pattern)
  end.

Definition matches (q r : Connection) : bool :=
  in_scope (conn_context q) (conn_context r)
  && binds (pre_cell q) (pre_cell r)
  && binds (post_cell q) (post_cell r)
  && binds (syntype q) (syntype r).

Definition ListStore : Type := list Connection.

Definition ListStore_load (s : ListStore) (q : Connection) : list Connection :=
  List.filter (matches q) s.

Section Neuron.

(** The Relation Store is an external collaborator: its state and the answer
    [x.load()] gives to a query are parameters. *)
Variable Store : Type.
Variable load : Store -> Connection -> list Connection.

(** The facts of a relation: [c.triples], called with the keywords of the
    caller, of the absent [Connection] class. *)
Variable Triple : Type.
Variable TriplesKwargs : Type.
Variable Connection_triples : Connection -> TriplesKwargs -> list Triple.

Record World : Type := mkWorld {
  w_props : list Property;
  w_store : Store;
  w_queries : list Connection
}.

Definition M (A : Type) : Type := World -> Outcome A * World.

Definition ret {A : Type} (a : A) : M A := fun w => (Ok a, w).

Definition raise {A : Type} (e : PyError) : M A := fun w => (Raise e, w).

Definition bind {A B : Type} (m : M A) (k : A -> M B) : M B :=
  fun w =>
    match m w with
    | (Ok a, w') => k a w'
    | (Raise e, w') => (Raise e, w')
    end.

Notation "x <- m ;; k" := (bind m (fun x => k))
  (at level 100, m at next level, right associativity).

Definition lift {A : Type} (o : Outcome A) : M A := fun w => (o, w).

(** Dereference a property object. *)
Definition deref (a : nat) : M Property :=
  fun w =>
    match w_props w !! a with
    | Some p => (Ok p, w)
    | None => (Raise DanglingReference, w)
    end.

(** Update a property object in place. *)
Definition modify (a : nat) (f : Property -> Property) : M unit :=
  fun w =>
    match w_props w !! a with
    | Some p => (Ok tt, mkWorld (<[a := f p]> (w_props w)) (w_store w) (w_queries w))
    | None => (Raise DanglingReference, w)
    end.

(** Allocate a property object. *)
Definition alloc (p : Property) : M nat :=
  fun w => (Ok (length (w_props w)),
            mkWorld (w_props w ++ [p]) (w_store w) (w_queries w)).

(** [x.load()], run to exhaustion: the query is sent to the store. *)
Definition Connection_load (x : Connection) : M (list Connection) :=
  fun w => (Ok (load (w_store w) x),
            mkWorld (w_props w) (w_store w) (w_queries w ++ [x])).

(** [for x in c: for r in x.load(): yield r] *)
Fixpoint load_all (c : list Connection) : M (list Connection) :=
  match c with
  | [] => ret []
  | x :: c' =>
      rs <- Connection_load x ;;
      rest <- load_all c' ;;
      ret (rs ++ rest)
  end.

(** [res = 0; for x in c: res += sum(1 for _ in x.load())] *)
Fixpoint count_all (c : list Connection) (res : nat) : M nat :=
  match c with
  | [] => ret res
  | x :: c' =>
      rs <- Connection_load x ;;
      count_all c' (res + length rs)
  end.

(** ** ConnectionProperty *)

(** The list [c] of queries that [get] and [count] build from the direction. *)
Definition direction_queries (conntype : Conntype) (owner : Cell)
    (pre_post_or_either : string) (kwargs : Kwargs) : Outcome (list Connection) :=
  if bool_decide (pre_post_or_either = "pre") then
    match Conntype_call conntype (Some owner) None kwargs with
    | Ok q => Ok [q]
    | Raise e => Raise e
    end
  else if bool_decide (pre_post_or_either = "post") then
    match Conntype_call conntype None (Some owner) kwargs with
    | Ok q => Ok [q]
    | Raise e => Raise e
    end
  else if bool_decide (pre_post_or_either = "either") then
    match Conntype_call conntype (Some owner) None kwargs with
    | Ok q1 =>
        match Conntype_call conntype None (Some owner) kwargs with
        | Ok q2 => Ok [q1; q2]
        | Raise e => Raise e
        end
    | Raise e => Raise e
    end
  else Ok [].

(** [ConnectionProperty.get] *)
Definition ConnectionProperty_get (a : nat) (pre_post_or_either : string)
    (kwargs : Kwargs) : M (list Connection) :=
  self <- deref a ;;
  c <- lift (direction_queries (p_conntype self) (p_owner self)
               pre_post_or_either kwargs) ;;
  load_all c.

(** [ConnectionProperty.count].
    [kw] holds the keywords of the call; the one named [syntype] binds the
    parameter [syntype], which the body never uses, and the others make
    [kwargs]. *)
Definition ConnectionProperty_count (a : nat) (pre_post_or_either : string)
    (kw : Kwargs) : M nat :=
  let kwargs := mkKwargs (kw_pre_cell kw) (kw_post_cell kw) None in
  self <- deref a ;;
  let conntype := Conntype_contextualize (p_conntype self) (p_context self) in
  c <- lift (direction_queries conntype (p_owner self) pre_post_or_either kwargs) ;;
  count_all c 0.

(** [assert(isinstance(conn, self._conntype))], giving the connection the
    value is. *)
Definition assert_isinstance (conn : PyVal) (cls : Conntype) : Outcome Connection :=
  if isinstance conn cls then
    match conn with
    | VConn c => Ok c
    | _ => Raise AssertionError
    end
  else Raise AssertionError.

(** [ConnectionProperty.set(conn)]: the function has no [return]. *)
Definition ConnectionProperty_set (a : nat) (conn : PyVal) : M PyVal :=
  self <- deref a ;;
  c <- lift (assert_isinstance conn (p_conntype self)) ;;
  _ <- modify a (append_conn c) ;;
  ret VNone.

(** [ConnectionProperty.triples] *)
Definition ConnectionProperty_triples (a : nat) (kwargs : TriplesKwargs) : M (list Triple) :=
  self <- deref a ;;
  ret (flat_map (fun c => Connection_triples c kwargs) (p_conns self)).

(** [ConnectionProperty.__init__(owner=owner)].

    Modelled from the spec: [Property.__init__] is not part of [neuron.py];
    a fresh property queries in the context of its owner. *)
Definition ConnectionProperty_init (owner : Neuron) : M nat :=
  alloc (mkProperty "connection" (n_name owner) (n_context owner) [] Connection_class).

(** Modelled from the spec: [Property.__call__] is not part of [neuron.py].
    A property called with no argument answers with [get()], all parameters
    at their defaults, and a property with [multiple = True] hands the values
    over as a Python set. *)
Definition ConnectionProperty_call (a : nat) : M (list Connection) :=
  r <- ConnectionProperty_get a "pre" no_kwargs ;;
  ret (remove_dups r).

(** ** Neighbor *)

(** [Neighbor.__init__(owner=owner)], with the same model of
    [Property.__init__]. *)
Definition Neighbor_init (owner : Neuron) : M nat :=
  alloc (mkProperty "neighbor" (n_name owner) (n_context owner) []
           (Conntype_contextualize Connection_class (n_context owner))).

(** [Neighbor.get] *)
Definition Neighbor_get (a : nat) (kwargs : Kwargs) : M (list PyVal) :=
  self <- deref a ;;
  if bool_decide (0 < length (p_conns self)) then
    ret (flat_map post_cell_get (p_conns self))
  else
    c <- lift (Conntype_call (Conntype_contextualize (p_conntype self) (p_context self))
                 (Some (p_owner self)) None kwargs) ;;
    rs <- Connection_load c ;;
    ret (map post_cell_call rs).

(** [Neighbor.set(other)] *)
Definition Neighbor_set (a : nat) (other : Cell) (kwargs : Kwargs) : M Connection :=
  self <- deref a ;;
  c <- lift (Conntype_call (p_conntype self) (Some (p_owner self)) (Some other) kwargs) ;;
  _ <- modify a (append_conn c) ;;
  ret c.

(** [Neighbor.triples] *)
Definition Neighbor_triples (a : nat) (kwargs : TriplesKwargs) : M (list Triple) :=
  self <- deref a ;;
  ret (flat_map (fun c => Connection_triples c kwargs) (p_conns self)).

(** ** Neuron *)

(** [Neuron.__init__(name)] for a neuron of the given context; the datatype
    properties and the aliases play no part in what follows. *)
Definition Neuron_init (name : Cell) (context : Context) : M Neuron :=
  let self := mkNeuron name context None None in
  n <- Neighbor_init self ;;
  c <- ConnectionProperty_init self ;;
  ret (mkNeuron name context (Some n) (Some c)).

(** Modelled from the spec: [Cell.contextualize] is not part of [neuron.py].
    The base contextualization answers with the entity in the given context
    and leaves the original as it is. *)
Definition Cell_contextualize (self : Neuron) (context : Context) : M Neuron :=
  ret (mkNeuron (n_name self) context (neighbor self) (connection self)).

(** Modelled from the spec: [Property.contextualize] is not part of
    [neuron.py].  Contextualizing a property makes a new property object
    bound to the given context, with a cache of its own, and leaves the
    original as it is. *)
Definition Property_contextualize (a : nat) (context : Context) : M nat :=
  self <- deref a ;;
  alloc (mkProperty (p_name self) (p_owner self) context [] (p_conntype self)).

(** [self.<name>], an [AttributeError] when the attribute is not set. *)
Definition getattr (attr : option nat) : M nat :=
  match attr with
  | Some a => ret a
  | None => raise AttributeError
  end.

(** [Neuron.contextualize(context)] *)
Definition Neuron_contextualize (self : Neuron) (context : Context) : M NeuronView :=
  res <- Cell_contextualize self context ;;
  if bool_decide (is_Some (neighbor self)) then
    n <- getattr (neighbor self) ;;
    n' <- Property_contextualize n context ;;
    c <- getattr (connection self) ;;
    c' <- Property_contextualize c context ;;
    ret (Proxied (mkNeuronProxy n' c' res))
  else ret (Plain res).

(** The loop of the two degree functions: count the connections whose
    [syntype.one()] equals the tag. *)
Definition count_syntype (tag : string) (cs : list Connection) : nat :=
  length (List.filter (fun c => bool_decide (syntype_one c = Some tag)) cs).

(** [Neuron.GJ_degree()] *)
Definition GJ_degree (self : Neuron) : M nat :=
  a <- getattr (connection self) ;;
  cs <- ConnectionProperty_call a ;;
  ret (count_syntype "gapJunction" cs).

(** [Neuron.Syn_degree()] *)
Definition Syn_degree (self : Neuron) : M nat :=
  a <- getattr (connection self) ;;
  cs <- ConnectionProperty_get a "either" no_kwargs ;;
  ret (count_syntype "send" cs).

(** The world after the calls [set(v)] for each [v] of [conns] in turn, on
    the connection property at [a]; a call that raises is caught. *)
Fixpoint set_each (a : nat) (conns : list PyVal) (w : World) : World :=
  match conns with
  | [] => w
  | v :: vs => set_each a vs (snd (ConnectionProperty_set a v w))
  end.

(** The connections among the values. *)
Definition connections_of (conns : list PyVal) : list Connection :=
  flat_map (fun v => match v with VConn c => [c] | _ => [] end) conns.

(** The property with another cache. *)
Definition with_conns (self : Property) (conns : list Connection) : Property :=
  mkProperty (p_name self) (p_owner self) (p_context self) conns (p_conntype self).

(** [for other in others: self.set(other)] on the neighbor property at [a],
    giving the relations the calls return. *)
Fixpoint Neighbor_set_each (a : nat) (others : list Cell) : M (list Connection) :=
  match others with
  | [] => ret []
  | other :: rest =>
      c <- Neighbor_set a other no_kwargs ;;
      cs <- Neighbor_set_each a rest ;;
      ret (c :: cs)
  end.

(** The outcome of a computation, its value mapped. *)
Definition Outcome_map {A B : Type} (f : A -> B) (o : Outcome A) : Outcome B :=
  match o with
  | Ok x => Ok (f x)
  | Raise e => Raise e
  end.

(** Whether a keyword is given. *)
Definition given {A : Type} (o : option A) : bool :=
  match o with
  | Some _ => true
  | None => false
  end.

(** Whether the keywords give an endpoint that the direction gives as well. *)
Definition keyword_clash (pre_post_or_either : string) (kwargs : Kwargs) : bool :=
  if bool_decide (pre_post_or_either = "pre") then given (kw_pre_cell kwargs)
  else if bool_decide (pre_post_or_either = "post") then given (kw_post_cell kwargs)
  else if bool_decide (pre_post_or_either = "either") then
    given (kw_pre_cell kwargs) || given (kw_post_cell kwargs)
  else false.

End Neuron.

Arguments mkWorld {Store} _ _ _.
Arguments w_props {Store} _.
Arguments w_store {Store} _.
Arguments w_queries {Store} _.
Arguments ret {Store A} _ _.
Arguments raise {Store A} _ _.
Arguments bind {Store A B} _ _ _.
Arguments lift {Store A} _ _.
Arguments deref {Store} _ _.
Arguments modify {Store} _ _ _.
Arguments alloc {Store} _ _.
Arguments Connection_load {Store} _ _ _.
Arguments load_all {Store} _ _ _.
Arguments count_all {Store} _ _ _ _.
Arguments ConnectionProperty_get {Store} _ _ _ _ _.
Arguments ConnectionProperty_count {Store} _ _ _ _ _.
Arguments ConnectionProperty_set {Store} _ _ _.
Arguments ConnectionProperty_triples {Store Triple TriplesKwargs} _ _ _ _.
Arguments ConnectionProperty_init {Store} _ _.
Arguments ConnectionProperty_call {Store} _ _ _.
Arguments Neighbor_init {Store} _ _.
Arguments Neighbor_get {Store} _ _ _ _.
Arguments Neighbor_set {Store} _ _ _ _.
Arguments Neighbor_triples {Store Triple TriplesKwargs} _ _ _ _.
Arguments Neuron_init {Store} _ _ _.
Arguments Cell_contextualize {Store} _ _ _.
Arguments Property_contextualize {Store} _ _ _.
Arguments getattr {Store} _ _.
Arguments Neuron_contextualize {Store} _ _ _.
Arguments GJ_degree {Store} _ _ _.
Arguments Syn_degree {Store} _ _ _.
Arguments set_each {Store} _ _ _.
Arguments Neighbor_set_each {Store} _ _ _.

Notation "x <- m ;; k" := (bind m (fun x => k))
  (at level 100, m at next level, right associativity).

(** ** A neuron over the reference store *)

Definition persisted : ListStore :=
  [ mkConnection (Scope "data") (Some "AVAL") (Some "AVBL") (Some "send");
    mkConnection (Scope "other") (Some "AVAL") (Some "PVCL") (Some "send");
    mkConnection (Scope "data") (Some "AVBR") (Some "AVAL") (Some "gapJunction");
    mkConnection (Scope "data") (Some "AVAL") (Some "AVAL") (Some "receive") ].

(** The world after [Neuron(name='AVAL')]: the neighbor property at 0, the
    connection property at 1. *)
Definition AVAL : Neuron := mkNeuron "AVAL" NoScope (Some 0) (Some 1).

Definition AVAL_neighbor : Property :=
  mkProperty "neighbor" "AVAL" NoScope [] (mkConntype NoScope).

Definition AVAL_connection : Property :=
  mkProperty "connection" "AVAL" NoScope [] Connection_class.

Definition AVAL_world : World ListStore :=
  mkWorld [AVAL_neighbor; AVAL_connection] persisted [].

(** The world after [AVAL.contextualize(data)]: the properties of the proxy
    at 2 and 3. *)
Definition data_world : World ListStore :=
  snd (Neuron_contextualize AVAL (Scope "data") AVAL_world).

(** The facts of a relation, for the examples: one per defined field. *)
Definition Fact : Type := string * string * string.

Definition Connection_facts (c : Connection) (kwargs : unit) : list Fact :=
  let subject := default "" (pre_cell c) +:+ "->" +:+ default "" (post_cell c) in
  flat_map (fun '(relation, object) =>
              match object with
              | Some o => [(subject, relation, o)]
              | None => []
              end)
    [("pre_cell", pre_cell c); ("post_cell", post_cell c); ("syntype", syntype c)].

Section Properties.

Context {Store : Type} (load : Store -> Connection -> list Connection).
Context {Triple TriplesKwargs : Type}.
Context (Connection_triples : Connection -> TriplesKwargs -> list Triple).
Implicit Types (w : World Store) (kw kwargs : Kwargs).

(** ** Running the loops *)

Lemma world_eta w : mkWorld (w_props w) (w_store w) (w_queries w) = w.
Proof. by destruct w. Qed.

Lemma load_all_run c w :
  load_all load c w =
    (Ok (flat_map (load (w_store w)) c),
     mkWorld (w_props w) (w_store w) (w_queries w ++ c)).
Proof.
  revert w. induction c as [|x c IH]; intros w; simpl.
  - unfold ret. by rewrite app_nil_r, world_eta.
  - unfold bind, Connection_load. rewrite IH. simpl. unfold ret.
    by rewrite <- app_assoc.
Qed.

Lemma count_all_run c res w :
  count_all load c res w =
    (Ok (res + length (flat_map (load (w_store w)) c)),
     mkWorld (w_props w) (w_store w) (w_queries w ++ c)).
Proof.
  revert res w. induction c as [|x c IH]; intros res w; simpl.
  - unfold ret. by rewrite app_nil_r, world_eta, Nat.add_0_r.
  - unfold bind, Connection_load. rewrite IH. simpl.
    by rewrite length_app, <- app_assoc, Nat.add_assoc.
Qed.

Lemma ConnectionProperty_get_run w a self d kwargs :
  w_props w !! a = Some self ->
  ConnectionProperty_get load a d kwargs w =
    match direction_queries (p_conntype self) (p_owner self) d kwargs with
    | Ok c => (Ok (flat_map (load (w_store w)) c),
               mkWorld (w_props w) (w_store w) (w_queries w ++ c))
    | Raise e => (Raise e, w)
    end.
Proof.
  intros Ha. unfold ConnectionProperty_get, bind, deref, lift. rewrite Ha.
  destruct (direction_queries _ _ _ _); [apply load_all_run | done].
Qed.

Lemma ConnectionProperty_count_run w a self d kw :
  w_props w !! a = Some self ->
  ConnectionProperty_count load a d kw w =
    match direction_queries (Conntype_contextualize (p_conntype self) (p_context self))
            (p_owner self) d (mkKwargs (kw_pre_cell kw) (kw_post_cell kw) None) with
    | Ok c => (Ok (length (flat_map (load (w_store w)) c)),
               mkWorld (w_props w) (w_store w) (w_queries w ++ c))
    | Raise e => (Raise e, w)
    end.
Proof.
  intros Ha. unfold ConnectionProperty_count, bind, deref, lift. rewrite Ha.
  destruct (direction_queries _ _ _ _); [apply count_all_run | done].
Qed.

Lemma get_dangling w a d kwargs :
  w_props w !! a = None ->
  ConnectionProperty_get load a d kwargs w = (Raise DanglingReference, w).
Proof. intros Ha. unfold ConnectionProperty_get, bind, deref. by rewrite Ha. Qed.

Lemma count_dangling w a d kw :
  w_props w !! a = None ->
  ConnectionProperty_count load a d kw w = (Raise DanglingReference, w).
Proof. intros Ha. unfold ConnectionProperty_count, bind, deref. by rewrite Ha. Qed.

(** The queries of a direction, for keywords that bind no endpoint. *)
Lemma direction_queries_pre cls owner kwargs :
  kw_pre_cell kwargs = None ->
  direction_queries cls owner "pre" kwargs =
    Ok [mkConnection (ct_context cls) (Some owner) (kw_post_cell kwargs) (kw_syntype kwargs)].
Proof.
  intros Hpre. unfold direction_queries, Conntype_call. simpl. rewrite Hpre. simpl.
  by destruct (kw_post_cell kwargs).
Qed.

Lemma direction_queries_post cls owner kwargs :
  kw_post_cell kwargs = None ->
  direction_queries cls owner "post" kwargs =
    Ok [mkConnection (ct_context cls) (kw_pre_cell kwargs) (Some owner) (kw_syntype kwargs)].
Proof.
  intros Hpost. unfold direction_queries, Conntype_call. simpl. rewrite Hpost. simpl.
  by destruct (kw_pre_cell kwargs).
Qed.

Lemma direction_queries_either cls owner kwargs :
  kw_pre_cell kwargs = None -> kw_post_cell kwargs = None ->
  direction_queries cls owner "either" kwargs =
    Ok [mkConnection (ct_context cls) (Some owner) None (kw_syntype kwargs);
        mkConnection (ct_context cls) None (Some owner) (kw_syntype kwargs)].
Proof.
  intros Hpre Hpost. unfold direction_queries, Conntype_call. simpl.
  by rewrite Hpre, Hpost.
Qed.

Lemma direction_queries_unrecognized cls owner d kwargs :
  d <> "pre" -> d <> "post" -> d <> "either" ->
  direction_queries cls owner d kwargs = Ok [].
Proof.
  intros H1 H2 H3. unfold direction_queries.
  by rewrite !bool_decide_eq_false_2.
Qed.

(** Every query of a direction is built by the class it is given. *)
Lemma direction_queries_context cls owner d kwargs c :
  direction_queries cls owner d kwargs = Ok c ->
  Forall (fun q => conn_context q = ct_context cls) c.
Proof.
  unfold direction_queries, Conntype_call.
  repeat case_bool_decide;
    destruct (keyword (Some owner) (kw_pre_cell kwargs)) as [x|] eqn:E1;
    destruct (keyword (Some owner) (kw_post_cell kwargs)) as [y|] eqn:E2;
    destruct (keyword None (kw_pre_cell kwargs)) as [x'|] eqn:E3;
    destruct (keyword None (kw_post_cell kwargs)) as [y'|] eqn:E4;
    intros [= <-]; repeat constructor.
Qed.

(** ** ConnectionProperty: direction, counting, order *)

(** C3, as the code has it: a direction that is none of ['pre'], ['post'] and
    ['either'] matches no branch, so [get] yields nothing, [count] returns 0,
    and no query reaches the store. *)
Theorem unrecognized_direction_is_empty w a self d kw :
  w_props w !! a = Some self ->
  d <> "pre" -> d <> "post" -> d <> "either" ->
  ConnectionProperty_get load a d kw w = (Ok [], w) /\
  ConnectionProperty_count load a d kw w = (Ok 0, w).
Proof.
  intros Ha H1 H2 H3.
  rewrite (ConnectionProperty_get_run _ _ _ _ _ Ha).
  rewrite (ConnectionProperty_count_run _ _ _ _ _ Ha).
  rewrite !direction_queries_unrecognized by done. simpl.
  by rewrite app_nil_r, world_eta.
Qed.

(** What [count] returns for keywords that bind no endpoint: the lengths of
    the answers to the one or two queries, added up. *)
Lemma count_pre_explicit w a self kw :
  w_props w !! a = Some self -> kw_pre_cell kw = None ->
  fst (ConnectionProperty_count load a "pre" kw w) =
    Ok (length (load (w_store w)
          (mkConnection (p_context self) (Some (p_owner self)) (kw_post_cell kw) None))).
Proof.
  intros Ha Hpre. rewrite (ConnectionProperty_count_run _ _ _ _ _ Ha).
  rewrite direction_queries_pre by done. simpl. by rewrite app_nil_r.
Qed.

Lemma count_post_explicit w a self kw :
  w_props w !! a = Some self -> kw_post_cell kw = None ->
  fst (ConnectionProperty_count load a "post" kw w) =
    Ok (length (load (w_store w)
          (mkConnection (p_context self) (kw_pre_cell kw) (Some (p_owner self)) None))).
Proof.
  intros Ha Hpost. rewrite (ConnectionProperty_count_run _ _ _ _ _ Ha).
  rewrite direction_queries_post by done. simpl. by rewrite app_nil_r.
Qed.

Lemma count_either_explicit w a self kw :
  w_props w !! a = Some self -> kw_pre_cell kw = None -> kw_post_cell kw = None ->
  fst (ConnectionProperty_count load a "either" kw w) =
    Ok (length (load (w_store w)
                  (mkConnection (p_context self) (Some (p_owner self)) None None))
        + length (load (w_store w)
                  (mkConnection (p_context self) None (Some (p_owner self)) None))).
Proof.
  intros Ha Hpre Hpost. rewrite (ConnectionProperty_count_run _ _ _ _ _ Ha).
  rewrite direction_queries_either by done. simpl.
  by rewrite app_nil_r, length_app.
Qed.

(** For the same keywords, whatever they are, the outcome of
    [count('either')] is that of [count('pre') + count('post')], the second
    call made after the first; when the keywords make a call raise, both
    sides raise the same exception. *)
Lemma count_either_is_pre_plus_post w a kw :
  fst (ConnectionProperty_count load a "either" kw w) =
  fst ((n <- ConnectionProperty_count load a "pre" kw ;;
        m <- ConnectionProperty_count load a "post" kw ;;
        ret (n + m)) w).
Proof.
  destruct (w_props w !! a) as [self|] eqn:Ha.
  - unfold bind.
    rewrite (ConnectionProperty_count_run _ _ _ "either" _ Ha).
    rewrite (ConnectionProperty_count_run _ _ _ "pre" _ Ha).
    unfold direction_queries, Conntype_call.
    destruct kw as [[x|] [y|] s]; simpl; try done.
    + rewrite (ConnectionProperty_count_run _ _ self) by done.
      unfold direction_queries, Conntype_call. by simpl.
    + rewrite (ConnectionProperty_count_run _ _ self) by done.
      unfold direction_queries, Conntype_call, ret. simpl.
      by rewrite !app_nil_r, length_app.
  - unfold bind. by rewrite !count_dangling.
Qed.

(** C4: for keywords that bind no endpoint, [count('pre')] returns the length
    of the store's answer to the pre query, [count('post')] the length of its
    answer to the post query, and [count('either')] sends both queries and
    returns the sum of the two lengths, so it equals [count('pre') +
    count('post')] and nothing is deduplicated: a relation that is the whole
    answer to both queries, as a self-loop is, makes the count 2.  For all
    keywords the outcome of [count('either')] is that of [count('pre') +
    count('post')]. *)
Theorem count_either_adds_without_dedup w a self kw :
  w_props w !! a = Some self ->
  kw_pre_cell kw = None -> kw_post_cell kw = None ->
  let q_pre := mkConnection (p_context self) (Some (p_owner self)) None None in
  let q_post := mkConnection (p_context self) None (Some (p_owner self)) None in
  let n_pre := length (load (w_store w) q_pre) in
  let n_post := length (load (w_store w) q_post) in
  ConnectionProperty_count load a "pre" kw w =
    (Ok n_pre, mkWorld (w_props w) (w_store w) (w_queries w ++ [q_pre])) /\
  ConnectionProperty_count load a "post" kw w =
    (Ok n_post, mkWorld (w_props w) (w_store w) (w_queries w ++ [q_post])) /\
  ConnectionProperty_count load a "either" kw w =
    (Ok (n_pre + n_post),
     mkWorld (w_props w) (w_store w) (w_queries w ++ [q_pre; q_post])) /\
  (forall r, load (w_store w) q_pre = [r] -> load (w_store w) q_post = [r] ->
     fst (ConnectionProperty_count load a "either" kw w) = Ok 2) /\
  (forall kw',
     fst (ConnectionProperty_count load a "either" kw' w) =
     fst ((n <- ConnectionProperty_count load a "pre" kw' ;;
           m <- ConnectionProperty_count load a "post" kw' ;;
           ret (n + m)) w)).
Proof.
  intros Ha Hpre Hpost q_pre q_post n_pre n_post.
  assert (ConnectionProperty_count load a "either" kw w =
            (Ok (n_pre + n_post),
             mkWorld (w_props w) (w_store w) (w_queries w ++ [q_pre; q_post])))
    as Heither.
  { rewrite (ConnectionProperty_count_run _ _ _ _ _ Ha).
    rewrite direction_queries_either by done. simpl.
    by rewrite app_nil_r, length_app. }
  split; [|split; [|split; [exact Heither|split]]].
  - rewrite (ConnectionProperty_count_run _ _ _ _ _ Ha).
    rewrite direction_queries_pre by done. simpl.
    by rewrite app_nil_r, Hpost.
  - rewrite (ConnectionProperty_count_run _ _ _ _ _ Ha).
    rewrite direction_queries_post by done. simpl.
    by rewrite app_nil_r, Hpre.
  - intros r Hr Hr'. rewrite Heither. subst n_pre n_post.
    by rewrite Hr, Hr'.
  - intros kw'. apply count_either_is_pre_plus_post.
Qed.

(** C8: [get('either')] yields the answer of the store to the pre query, in
    the order of the store, and then its answer to the post query, in the
    order of the store; the two queries are sent in that order. *)
Theorem get_either_pre_then_post w a self kwargs :
  w_props w !! a = Some self ->
  kw_pre_cell kwargs = None -> kw_post_cell kwargs = None ->
  let cls := p_conntype self in
  let q_pre := mkConnection (ct_context cls) (Some (p_owner self)) None (kw_syntype kwargs) in
  let q_post := mkConnection (ct_context cls) None (Some (p_owner self)) (kw_syntype kwargs) in
  ConnectionProperty_get load a "pre" kwargs w =
    (Ok (load (w_store w) q_pre),
     mkWorld (w_props w) (w_store w) (w_queries w ++ [q_pre])) /\
  ConnectionProperty_get load a "post" kwargs w =
    (Ok (load (w_store w) q_post),
     mkWorld (w_props w) (w_store w) (w_queries w ++ [q_post])) /\
  ConnectionProperty_get load a "either" kwargs w =
    (Ok (load (w_store w) q_pre ++ load (w_store w) q_post),
     mkWorld (w_props w) (w_store w) (w_queries w ++ [q_pre; q_post])).
Proof.
  intros Ha Hpre Hpost. simpl.
  rewrite !(ConnectionProperty_get_run _ _ _ _ _ Ha).
  rewrite direction_queries_pre, direction_queries_post, direction_queries_either by done.
  rewrite Hpre, Hpost. simpl. by rewrite !app_nil_r.
Qed.

(** ** ConnectionProperty: the context of the queries *)

(** The queries of [count] are built by the class contextualized with the
    context of the property. *)
Lemma count_queries_in_context w a self d kw n w' :
  w_props w !! a = Some self ->
  ConnectionProperty_count load a d kw w = (Ok n, w') ->
  exists c, w_queries w' = w_queries w ++ c /\
            Forall (fun q => conn_context q = p_context self) c.
Proof.
  intros Ha. rewrite (ConnectionProperty_count_run _ _ _ _ _ Ha).
  destruct (direction_queries _ _ _ _) as [c|] eqn:E; [|done].
  intros [= _ <-]. exists c. split; [done|].
  by apply direction_queries_context in E.
Qed.

(** The queries of [get] are built by [self._conntype] as it is, whatever
    the context of the property. *)
Lemma get_queries_in_class_context w a self d kwargs rs w' :
  w_props w !! a = Some self ->
  ConnectionProperty_get load a d kwargs w = (Ok rs, w') ->
  exists c, w_queries w' = w_queries w ++ c /\
            Forall (fun q => conn_context q = ct_context (p_conntype self)) c.
Proof.
  intros Ha. rewrite (ConnectionProperty_get_run _ _ _ _ _ Ha).
  destruct (direction_queries _ _ _ _) as [c|] eqn:E; [|done].
  intros [= _ <-]. exists c. split; [done|].
  by apply direction_queries_context in E.
Qed.

(** ** ConnectionProperty: the cache *)

Lemma with_conns_same self : with_conns self (p_conns self) = self.
Proof. by destruct self. Qed.

Lemma append_conn_with_conns c self conns :
  append_conn c (with_conns self conns) = with_conns self (conns ++ [c]).
Proof. done. Qed.

(** [set] on a connection: the cache grows by it, nothing else changes and
    the call returns [None]. *)
Lemma ConnectionProperty_set_connection w a self c :
  w_props w !! a = Some self ->
  ConnectionProperty_set a (VConn c) w =
    (Ok VNone,
     mkWorld (<[a := append_conn c self]> (w_props w)) (w_store w) (w_queries w)).
Proof.
  intros Ha. unfold ConnectionProperty_set, bind, deref, lift, modify.
  rewrite Ha. simpl. by rewrite Ha.
Qed.

(** [set] on anything else: the assertion fails and nothing changes. *)
Lemma ConnectionProperty_set_other w a self v :
  w_props w !! a = Some self ->
  (forall c, v <> VConn c) ->
  ConnectionProperty_set a v w = (Raise AssertionError, w).
Proof.
  intros Ha Hv. unfold ConnectionProperty_set, bind, deref, lift.
  rewrite Ha. destruct v; simpl; try done. by destruct (Hv c).
Qed.

Lemma set_each_run conns : forall w a self,
  w_props w !! a = Some self ->
  set_each a conns w =
    mkWorld (<[a := with_conns self (p_conns self ++ connections_of conns)]> (w_props w))
            (w_store w) (w_queries w).
Proof.
  induction conns as [|v vs IH]; intros w a self Ha.
  - simpl. rewrite app_nil_r, with_conns_same, list_insert_id by done.
    by rewrite world_eta.
  - assert (a < length (w_props w)) as Hlt by (by eapply lookup_lt_Some).
    destruct v as [|s|x|c]; simpl;
      try (rewrite (ConnectionProperty_set_other _ _ self) by done; simpl;
           by apply IH).
    rewrite (ConnectionProperty_set_connection _ _ self) by done. simpl.
    rewrite (IH _ _ (append_conn c self)); simpl.
    + rewrite list_insert_insert_eq.
      rewrite <- (with_conns_same self) at 1.
      by rewrite append_conn_with_conns, <- app_assoc.
    + by apply list_lookup_insert_eq.
Qed.

(** C10: after any sequence of [set] calls on a connection property, [get]
    and [count] yield what they yield without them and send the same queries:
    they never read the cache, which shows in [triples] only. *)
Theorem set_invisible_to_get_and_count w a self conns d kw tk :
  w_props w !! a = Some self ->
  let w' := set_each a conns w in
  fst (ConnectionProperty_get load a d kw w') = fst (ConnectionProperty_get load a d kw w) /\
  w_queries (snd (ConnectionProperty_get load a d kw w')) =
    w_queries (snd (ConnectionProperty_get load a d kw w)) /\
  fst (ConnectionProperty_count load a d kw w') = fst (ConnectionProperty_count load a d kw w) /\
  w_queries (snd (ConnectionProperty_count load a d kw w')) =
    w_queries (snd (ConnectionProperty_count load a d kw w)) /\
  w_store w' = w_store w /\
  ConnectionProperty_triples Connection_triples a tk w' =
    (Ok (flat_map (fun c => Connection_triples c tk)
           (p_conns self ++ connections_of conns)), w').
Proof.
  intros Ha w'. subst w'. rewrite (set_each_run conns _ _ _ Ha).
  assert (a < length (w_props w)) as Hlt by (by eapply lookup_lt_Some).
  set (self' := with_conns self (p_conns self ++ connections_of conns)).
  set (w' := mkWorld _ _ _).
  assert (w_props w' !! a = Some self') as Ha'
    by (by apply list_lookup_insert_eq).
  rewrite (ConnectionProperty_get_run _ _ _ _ _ Ha').
  rewrite (ConnectionProperty_get_run _ _ _ _ _ Ha).
  rewrite (ConnectionProperty_count_run _ _ _ _ _ Ha').
  rewrite (ConnectionProperty_count_run _ _ _ _ _ Ha).
  simpl. repeat split.
  - by destruct (direction_queries _ _ _ _).
  - by destruct (direction_queries _ _ _ _).
  - by destruct (direction_queries _ _ _ _).
  - by destruct (direction_queries _ _ _ _).
  - unfold ConnectionProperty_triples, bind, deref. by rewrite Ha'.
Qed.

(** ** Triples *)

(** C7: [triples] of a neighbor property and of a connection property yield
    the facts of the cached relations, in the order of the cache, and leave
    the world as it is: no query is sent.  With an empty cache they yield
    nothing, whatever the store holds. *)
Theorem triples_from_cache_only w a self tk :
  w_props w !! a = Some self ->
  Neighbor_triples Connection_triples a tk w =
    (Ok (flat_map (fun c => Connection_triples c tk) (p_conns self)), w) /\
  ConnectionProperty_triples Connection_triples a tk w =
    (Ok (flat_map (fun c => Connection_triples c tk) (p_conns self)), w) /\
  (p_conns self = [] ->
   Neighbor_triples Connection_triples a tk w = (Ok [], w) /\
   ConnectionProperty_triples Connection_triples a tk w = (Ok [], w)).
Proof.
  intros Ha.
  unfold Neighbor_triples, ConnectionProperty_triples, bind, deref, ret.
  rewrite Ha. repeat split; intros; try done; by match goal with H : p_conns _ = [] |- _ => rewrite H end.
Qed.

(** ** Neighbor *)

Lemma Neighbor_set_run w a self other kwargs :
  w_props w !! a = Some self ->
  kw_pre_cell kwargs = None -> kw_post_cell kwargs = None ->
  let c := mkConnection (ct_context (p_conntype self)) (Some (p_owner self))
             (Some other) (kw_syntype kwargs) in
  Neighbor_set a other kwargs w =
    (Ok c, mkWorld (<[a := append_conn c self]> (w_props w)) (w_store w) (w_queries w)).
Proof.
  intros Ha Hpre Hpost. simpl.
  unfold Neighbor_set, bind, deref, lift, modify, Conntype_call.
  rewrite Ha, Hpre, Hpost. simpl. by rewrite Ha.
Qed.

Lemma Neighbor_get_cached w a self kwargs :
  w_props w !! a = Some self -> p_conns self <> [] ->
  Neighbor_get load a kwargs w = (Ok (flat_map post_cell_get (p_conns self)), w).
Proof.
  intros Ha Hne. unfold Neighbor_get, bind, deref. rewrite Ha.
  rewrite bool_decide_eq_true_2; [done|].
  destruct (p_conns self); [done | simpl; lia].
Qed.

Lemma Neighbor_get_store w a self kwargs :
  w_props w !! a = Some self -> p_conns self = [] ->
  kw_pre_cell kwargs = None ->
  let q := mkConnection (p_context self) (Some (p_owner self))
             (kw_post_cell kwargs) (kw_syntype kwargs) in
  Neighbor_get load a kwargs w =
    (Ok (map post_cell_call (load (w_store w) q)),
     mkWorld (w_props w) (w_store w) (w_queries w ++ [q])).
Proof.
  intros Ha Hnil Hpre. simpl.
  unfold Neighbor_get, bind, deref, lift, Conntype_call, Connection_load.
  rewrite Ha, Hnil, Hpre. simpl. by destruct (kw_post_cell kwargs).
Qed.

(** C1: after [set(other)], [get()] yields the post endpoints of the cached
    relations, the new one last, and sends no query, so they are never merged
    with what the store holds; after a single [set] that is [other] alone.
    With an empty cache [get()] sends the query whose pre endpoint is the
    owner, in the context of the property, and yields the post endpoint of
    each relation of the answer. *)
Theorem Neighbor_set_then_get w a self other kwargs kwargs' :
  w_props w !! a = Some self ->
  kw_pre_cell kwargs = None -> kw_post_cell kwargs = None ->
  let c := mkConnection (ct_context (p_conntype self)) (Some (p_owner self))
             (Some other) (kw_syntype kwargs) in
  let w1 := mkWorld (<[a := append_conn c self]> (w_props w)) (w_store w) (w_queries w) in
  Neighbor_set a other kwargs w = (Ok c, w1) /\
  Neighbor_get load a kwargs' w1 =
    (Ok (flat_map post_cell_get (p_conns self) ++ [VCell other]), w1) /\
  (p_conns self = [] -> Neighbor_get load a kwargs' w1 = (Ok [VCell other], w1)) /\
  (p_conns self = [] -> kw_pre_cell kwargs' = None ->
   let q := mkConnection (p_context self) (Some (p_owner self))
              (kw_post_cell kwargs') (kw_syntype kwargs') in
   Neighbor_get load a kwargs' w =
     (Ok (map post_cell_call (load (w_store w) q)),
      mkWorld (w_props w) (w_store w) (w_queries w ++ [q]))).
Proof.
  intros Ha Hpre Hpost c w1.
  assert (a < length (w_props w)) as Hlt by (by eapply lookup_lt_Some).
  assert (w_props w1 !! a = Some (append_conn c self)) as Ha1
    by (by apply list_lookup_insert_eq).
  assert (Neighbor_get load a kwargs' w1 =
            (Ok (flat_map post_cell_get (p_conns self) ++ [VCell other]), w1)) as Hget.
  { rewrite (Neighbor_get_cached _ _ _ _ Ha1).
    - simpl. by rewrite flat_map_app.
    - simpl. by destruct (p_conns self). }
  split; [by apply Neighbor_set_run|]. split; [done|]. split.
  - intros Hnil. by rewrite Hget, Hnil.
  - intros Hnil Hpre'. by apply Neighbor_get_store.
Qed.

(** ** Neuron.contextualize *)

(** The property a contextualization allocates. *)
Lemma Property_contextualize_run w a self context :
  w_props w !! a = Some self ->
  Property_contextualize a context w =
    (Ok (length (w_props w)),
     mkWorld (w_props w ++ [mkProperty (p_name self) (p_owner self) context []
                              (p_conntype self)])
             (w_store w) (w_queries w)).
Proof.
  intros Ha. unfold Property_contextualize, bind, deref, alloc. by rewrite Ha.
Qed.

(** C6: on a neuron that has its neighbor and connection properties,
    [contextualize] answers with a proxy over the contextualized base entity
    whose two properties are new objects bound to the given context; every
    property object that existed keeps its context and its cache, and the
    store and the log of queries are as before.  On a neuron without a
    neighbor property it answers with the contextualized base entity alone
    and the world is unchanged. *)
Theorem Neuron_contextualize_fresh_proxy w self context n c pn pc :
  neighbor self = Some n -> connection self = Some c ->
  w_props w !! n = Some pn -> w_props w !! c = Some pc ->
  let res := mkNeuron (n_name self) context (neighbor self) (connection self) in
  let n' := length (w_props w) in
  let c' := S (length (w_props w)) in
  exists w',
    Neuron_contextualize self context w = (Ok (Proxied (mkNeuronProxy n' c' res)), w') /\
    w_props w !! n' = None /\ w_props w !! c' = None /\
    w_props w' !! n' =
      Some (mkProperty (p_name pn) (p_owner pn) context [] (p_conntype pn)) /\
    w_props w' !! c' =
      Some (mkProperty (p_name pc) (p_owner pc) context [] (p_conntype pc)) /\
    (forall a p, w_props w !! a = Some p -> w_props w' !! a = Some p) /\
    w_store w' = w_store w /\ w_queries w' = w_queries w /\
    (forall other, neighbor other = None ->
       Neuron_contextualize other context w =
         (Ok (Plain (mkNeuron (n_name other) context None (connection other))), w)).
Proof.
  intros Hn Hc Hpn Hpc res n' c'.
  set (pn' := mkProperty (p_name pn) (p_owner pn) context [] (p_conntype pn)).
  set (pc' := mkProperty (p_name pc) (p_owner pc) context [] (p_conntype pc)).
  exists (mkWorld ((w_props w ++ [pn']) ++ [pc']) (w_store w) (w_queries w)).
  split; [|repeat split].
  - unfold Neuron_contextualize, Cell_contextualize, bind at 1, ret at 1.
    rewrite Hn, Hc. rewrite bool_decide_eq_true_2 by done.
    unfold bind, getattr, ret.
    rewrite (Property_contextualize_run _ _ _ _ Hpn). fold pn'.
    rewrite (Property_contextualize_run _ _ pc).
    + simpl. rewrite length_app. simpl.
      subst res n' c'. rewrite Hn, Hc. by rewrite Nat.add_1_r.
    + simpl. by apply lookup_app_l_Some.
  - by apply lookup_ge_None_2.
  - apply lookup_ge_None_2. subst c'. lia.
  - simpl. rewrite lookup_app_l by (rewrite length_app; simpl; lia).
    subst n'. by rewrite list_lookup_middle.
  - simpl. subst c'. rewrite list_lookup_middle; [done|].
    rewrite length_app. simpl. lia.
  - intros a p Ha. simpl. by do 2 apply lookup_app_l_Some.
  - intros other Ho. unfold Neuron_contextualize, Cell_contextualize, bind, ret.
    rewrite Ho. by rewrite bool_decide_eq_false_2 by (by intros [? ?]).
Qed.

(** A neuron with a neighbor attribute and no connection attribute, which
    [Neuron.__init__] never builds, makes [contextualize] raise. *)
Lemma Neuron_contextualize_needs_connection w self context n pn :
  neighbor self = Some n -> connection self = None ->
  w_props w !! n = Some pn ->
  fst (Neuron_contextualize self context w) = Raise AttributeError.
Proof.
  intros Hn Hc Hpn.
  unfold Neuron_contextualize, Cell_contextualize, bind at 1, ret at 1.
  rewrite Hn, Hc. rewrite bool_decide_eq_true_2 by done.
  unfold bind, getattr, ret.
  by rewrite (Property_contextualize_run _ _ _ _ Hpn).
Qed.

(** [Neuron.__init__] sets both attributes. *)
Lemma Neuron_init_has_both name context w :
  exists n c w',
    Neuron_init name context w = (Ok (mkNeuron name context (Some n) (Some c)), w') /\
    is_Some (w_props w' !! n) /\ is_Some (w_props w' !! c).
Proof.
  exists (length (w_props w)), (S (length (w_props w))). eexists.
  unfold Neuron_init, Neighbor_init, ConnectionProperty_init, bind, alloc, ret.
  simpl. rewrite length_app. simpl. rewrite Nat.add_1_r.
  split; [done|]. simpl. split.
  - rewrite lookup_app_l by (rewrite length_app; simpl; lia).
    rewrite list_lookup_middle; [by eexists | done].
  - rewrite list_lookup_middle; [by eexists|]. rewrite length_app. simpl. lia.
Qed.

(** ** Degrees *)

(** [GJ_degree] counts among the answer to the pre query alone: the call
    [self.connection()] leaves the direction at its default. *)
Lemma GJ_degree_run w self a p :
  connection self = Some a -> w_props w !! a = Some p ->
  let q_pre := mkConnection (ct_context (p_conntype p)) (Some (p_owner p)) None None in
  GJ_degree load self w =
    (Ok (count_syntype "gapJunction" (remove_dups (load (w_store w) q_pre))),
     mkWorld (w_props w) (w_store w) (w_queries w ++ [q_pre])).
Proof.
  intros Hc Ha. simpl.
  unfold GJ_degree, ConnectionProperty_call, bind at 1 2, getattr. rewrite Hc.
  unfold ret at 1. unfold bind.
  rewrite (ConnectionProperty_get_run _ _ _ _ _ Ha).
  rewrite direction_queries_pre by done. simpl. by rewrite app_nil_r.
Qed.

(** [Syn_degree] iterates [get('either')] and counts the relations whose
    tag is ['send']. *)
Lemma Syn_degree_run w self a p :
  connection self = Some a -> w_props w !! a = Some p ->
  let q_pre := mkConnection (ct_context (p_conntype p)) (Some (p_owner p)) None None in
  let q_post := mkConnection (ct_context (p_conntype p)) None (Some (p_owner p)) None in
  Syn_degree load self w =
    (Ok (count_syntype "send" (load (w_store w) q_pre ++ load (w_store w) q_post)),
     mkWorld (w_props w) (w_store w) (w_queries w ++ [q_pre; q_post])).
Proof.
  intros Hc Ha. simpl.
  unfold Syn_degree, bind at 1, getattr. rewrite Hc.
  unfold ret at 1. unfold bind.
  rewrite (ConnectionProperty_get_run _ _ _ _ _ Ha).
  rewrite direction_queries_either by done. simpl. by rewrite app_nil_r.
Qed.

End Properties.

(** ** The theorems on the neuron AVAL *)

Example Neuron_init_AVAL :
  Neuron_init "AVAL" NoScope (mkWorld [] persisted []) = (Ok AVAL, AVAL_world).
Proof. reflexivity. Qed.

(** C1 on AVAL: after [neighbor.set('AVBL')] the neighbors are AVBL alone,
    whatever the store holds; before it they are the post endpoints of the
    three persisted relations whose pre endpoint is AVAL. *)
Lemma Neighbor_set_then_get_witness :
  w_props AVAL_world !! 0 = Some AVAL_neighbor /\
  (let w1 := snd (Neighbor_set 0 "AVBL" no_kwargs AVAL_world) in
   Neighbor_get ListStore_load 0 no_kwargs w1 = (Ok [VCell "AVBL"], w1) /\
   w_queries w1 = []) /\
  fst (Neighbor_get ListStore_load 0 no_kwargs AVAL_world) =
    Ok [VCell "AVBL"; VCell "PVCL"; VCell "AVAL"].
Proof.
  destruct (Neighbor_set_then_get ListStore_load AVAL_world 0 AVAL_neighbor
              "AVBL" no_kwargs no_kwargs eq_refl eq_refl eq_refl)
    as (Hset & _ & Hone & Hstore).
  split; [reflexivity|]. split.
  - rewrite Hset. simpl. split; [exact (Hone eq_refl) | reflexivity].
  - rewrite (Hstore eq_refl eq_refl). reflexivity.
Defined.

(** C3 as claimed fails on AVAL: ['sideways'] yields nothing where ['pre']
    yields three relations, and counts 0 where ['pre'] counts 3. *)
Lemma unrecognized_direction_is_not_pre :
  fst (ConnectionProperty_get ListStore_load 1 "sideways" no_kwargs AVAL_world) <>
  fst (ConnectionProperty_get ListStore_load 1 "pre" no_kwargs AVAL_world) /\
  fst (ConnectionProperty_count ListStore_load 1 "sideways" no_kwargs AVAL_world) = Ok 0 /\
  fst (ConnectionProperty_count ListStore_load 1 "pre" no_kwargs AVAL_world) = Ok 3.
Proof. split; [discriminate | split; reflexivity]. Qed.

Lemma unrecognized_direction_is_empty_witness :
  w_props AVAL_world !! 1 = Some AVAL_connection /\
  ConnectionProperty_get ListStore_load 1 "sideways" no_kwargs AVAL_world =
    (Ok [], AVAL_world) /\
  ConnectionProperty_count ListStore_load 1 "sideways" no_kwargs AVAL_world =
    (Ok 0, AVAL_world).
Proof.
  split; [reflexivity|].
  apply (unrecognized_direction_is_empty ListStore_load AVAL_world 1 AVAL_connection
           "sideways" no_kwargs); [reflexivity | discriminate ..].
Defined.

(** C4 on AVAL: the relation from AVAL to AVAL is counted once in each
    direction, so twice by ['either']. *)
Example count_either_counts_self_loop_twice :
  let loop := mkConnection (Scope "data") (Some "AVAL") (Some "AVAL") (Some "receive") in
  let w := mkWorld [AVAL_neighbor; AVAL_connection] [loop] [] in
  fst (ConnectionProperty_count ListStore_load 1 "pre" no_kwargs w) = Ok 1 /\
  fst (ConnectionProperty_count ListStore_load 1 "post" no_kwargs w) = Ok 1 /\
  fst (ConnectionProperty_count ListStore_load 1 "either" no_kwargs w) = Ok 2.
Proof. repeat split. Qed.

(** C4 on a store whose one relation goes from AVAL to AVAL: it is the
    answer to the pre query and to the post query, and [count('either')]
    is 2. *)
Lemma count_either_adds_without_dedup_witness :
  let loop := mkConnection (Scope "data") (Some "AVAL") (Some "AVAL") (Some "receive") in
  let w := mkWorld [AVAL_neighbor; AVAL_connection] [loop] [] in
  w_props w !! 1 = Some AVAL_connection /\
  ConnectionProperty_count ListStore_load 1 "pre" no_kwargs w =
    (Ok 1, mkWorld [AVAL_neighbor; AVAL_connection] [loop]
             [mkConnection NoScope (Some "AVAL") None None]) /\
  ConnectionProperty_count ListStore_load 1 "post" no_kwargs w =
    (Ok 1, mkWorld [AVAL_neighbor; AVAL_connection] [loop]
             [mkConnection NoScope None (Some "AVAL") None]) /\
  ConnectionProperty_count ListStore_load 1 "either" no_kwargs w =
    (Ok 2, mkWorld [AVAL_neighbor; AVAL_connection] [loop]
             [mkConnection NoScope (Some "AVAL") None None;
              mkConnection NoScope None (Some "AVAL") None]) /\
  fst (ConnectionProperty_count ListStore_load 1 "either" no_kwargs w) = Ok 2.
Proof.
  intros loop w. split; [reflexivity|].
  destruct (count_either_adds_without_dedup ListStore_load w 1 AVAL_connection
              no_kwargs eq_refl eq_refl eq_refl)
    as (Hpre & Hpost & Heither & Hloop & _).
  split; [exact Hpre|]. split; [exact Hpost|]. split; [exact Heither|].
  exact (Hloop loop eq_refl eq_refl).
Defined.

(** C8 on AVAL: the three relations leaving AVAL come first, in the order of
    the store, then the two relations reaching it. *)
Lemma get_either_pre_then_post_witness :
  w_props AVAL_world !! 1 = Some AVAL_connection /\
  fst (ConnectionProperty_get ListStore_load 1 "either" no_kwargs AVAL_world) =
    Ok ([ mkConnection (Scope "data") (Some "AVAL") (Some "AVBL") (Some "send");
          mkConnection (Scope "other") (Some "AVAL") (Some "PVCL") (Some "send");
          mkConnection (Scope "data") (Some "AVAL") (Some "AVAL") (Some "receive") ]
        ++ [ mkConnection (Scope "data") (Some "AVBR") (Some "AVAL") (Some "gapJunction");
             mkConnection (Scope "data") (Some "AVAL") (Some "AVAL") (Some "receive") ]).
Proof.
  split; [reflexivity|].
  destruct (get_either_pre_then_post ListStore_load AVAL_world 1 AVAL_connection
              no_kwargs eq_refl eq_refl eq_refl) as (_ & _ & Heither).
  rewrite Heither. reflexivity.
Defined.

(** C2 on AVAL: the store holds one gap junction touching AVAL, from AVBR to
    AVAL.  [GJ_degree] sends the pre query alone and returns 0, though
    [get('either')] yields that gap junction; [Syn_degree] sends both queries
    and counts the two relations tagged ['send']. *)
Lemma GJ_degree_misses_incoming :
  GJ_degree ListStore_load AVAL AVAL_world =
    (Ok 0, mkWorld [AVAL_neighbor; AVAL_connection] persisted
             [mkConnection NoScope (Some "AVAL") None None]) /\
  (exists rs,
     fst (ConnectionProperty_get ListStore_load 1 "either" no_kwargs AVAL_world) = Ok rs /\
     count_syntype "gapJunction" rs = 1) /\
  Syn_degree ListStore_load AVAL AVAL_world =
    (Ok 2, mkWorld [AVAL_neighbor; AVAL_connection] persisted
             [mkConnection NoScope (Some "AVAL") None None;
              mkConnection NoScope None (Some "AVAL") None]).
Proof. split; [reflexivity|]. split; [by eexists | reflexivity]. Qed.

(** C5 on AVAL contextualized to the context data: the connection property of
    the proxy, at 3, is bound to data.  Its [get('pre')] sends a query with no
    context and yields the relation of the context other among the three;
    its [count('pre')] sends the query in the context data and counts 2. *)
Lemma get_query_outside_property_context :
  p_context <$> w_props data_world !! 3 = Some (Scope "data") /\
  w_queries (snd (ConnectionProperty_get ListStore_load 3 "pre" no_kwargs data_world)) =
    [mkConnection NoScope (Some "AVAL") None None] /\
  fst (ConnectionProperty_get ListStore_load 3 "pre" no_kwargs data_world) =
    Ok [ mkConnection (Scope "data") (Some "AVAL") (Some "AVBL") (Some "send");
         mkConnection (Scope "other") (Some "AVAL") (Some "PVCL") (Some "send");
         mkConnection (Scope "data") (Some "AVAL") (Some "AVAL") (Some "receive") ] /\
  w_queries (snd (ConnectionProperty_count ListStore_load 3 "pre" no_kwargs data_world)) =
    [mkConnection (Scope "data") (Some "AVAL") None None] /\
  fst (ConnectionProperty_count ListStore_load 3 "pre" no_kwargs data_world) = Ok 2.
Proof. repeat split. Qed.

(** C9 on AVAL: [connection.set(conn)] appends the connection to the cache,
    sends no query, leaves the store as it is, and returns [None], where
    [neighbor.set] returns the relation it made; on a value that is no
    connection the assertion fails and nothing changes. *)
Lemma ConnectionProperty_set_returns_None :
  let conn := mkConnection NoScope (Some "AVAL") (Some "AVBL") (Some "send") in
  ConnectionProperty_set 1 (VConn conn) AVAL_world =
    (Ok VNone,
     mkWorld [AVAL_neighbor; append_conn conn AVAL_connection] persisted []) /\
  fst (Neighbor_set 0 "AVBL" (mkKwargs None None (Some "send")) AVAL_world) = Ok conn /\
  ConnectionProperty_set 1 (VStr "AVBL") AVAL_world = (Raise AssertionError, AVAL_world).
Proof. repeat split. Qed.

(** C6 on AVAL: the proxy holds the new properties 2 and 3, bound to data
    with empty caches; the properties 0 and 1 are as before, also when their
    caches are not empty. *)
Lemma Neuron_contextualize_fresh_proxy_witness :
  let staged := mkConnection NoScope (Some "AVAL") (Some "AVBL") None in
  let w := mkWorld [append_conn staged AVAL_neighbor; AVAL_connection] persisted [] in
  (neighbor AVAL = Some 0 /\ connection AVAL = Some 1) /\
  exists w',
    Neuron_contextualize AVAL (Scope "data") w =
      (Ok (Proxied (mkNeuronProxy 2 3 (mkNeuron "AVAL" (Scope "data") (Some 0) (Some 1)))),
       w') /\
    w_props w' !! 0 = Some (append_conn staged AVAL_neighbor) /\
    w_props w' !! 1 = Some AVAL_connection /\
    w_props w' !! 2 = Some (mkProperty "neighbor" "AVAL" (Scope "data") [] (mkConntype NoScope)) /\
    w_props w' !! 3 = Some (mkProperty "connection" "AVAL" (Scope "data") [] Connection_class).
Proof.
  intros staged w. split; [by split|].
  destruct (Neuron_contextualize_fresh_proxy w AVAL (Scope "data") 0 1
              (append_conn staged AVAL_neighbor) AVAL_connection
              eq_refl eq_refl eq_refl eq_refl)
    as (w' & Hrun & _ & _ & Hn & Hc & Hframe & _).
  exists w'. split; [exact Hrun|].
  split; [by apply Hframe|]. split; [by apply Hframe|]. split; [exact Hn | exact Hc].
Defined.

(** C7 on AVAL: with empty caches the triples are none, though the store
    holds four relations; after a [set] they are the facts of the staged
    relation. *)
Lemma triples_from_cache_only_witness :
  w_props AVAL_world !! 1 = Some AVAL_connection /\
  Neighbor_triples Connection_facts 1 tt AVAL_world = (Ok [], AVAL_world) /\
  ConnectionProperty_triples Connection_facts 1 tt AVAL_world = (Ok [], AVAL_world).
Proof.
  split; [reflexivity|].
  destruct (triples_from_cache_only Connection_facts AVAL_world 1 AVAL_connection tt
              eq_refl) as (_ & _ & Hempty).
  exact (Hempty eq_refl).
Defined.

(** C10 on AVAL: after two accepted [set] calls and a refused one, [get] and
    [count] answer as before, and [triples] yields the facts of the two
    staged relations. *)
Lemma set_invisible_to_get_and_count_witness :
  let c1 := mkConnection NoScope (Some "AVAL") (Some "AVBL") (Some "send") in
  let c2 := mkConnection NoScope (Some "RIML") (Some "AVAL") (Some "gapJunction") in
  let w' := set_each 1 [VConn c1; VStr "AVBL"; VConn c2] AVAL_world in
  w_props AVAL_world !! 1 = Some AVAL_connection /\
  fst (ConnectionProperty_get ListStore_load 1 "either" no_kwargs w') =
    fst (ConnectionProperty_get ListStore_load 1 "either" no_kwargs AVAL_world) /\
  fst (ConnectionProperty_count ListStore_load 1 "either" no_kwargs w') = Ok 5 /\
  fst (ConnectionProperty_triples Connection_facts 1 tt w') =
    Ok (Connection_facts c1 tt ++ Connection_facts c2 tt).
Proof.
  intros c1 c2 w'. split; [reflexivity|].
  destruct (set_invisible_to_get_and_count ListStore_load Connection_facts AVAL_world 1
              AVAL_connection [VConn c1; VStr "AVBL"; VConn c2] "either" no_kwargs tt
              eq_refl)
    as (Hget & _ & Hcount & _ & _ & Htriples).
  split; [exact Hget|]. split.
  - fold w' in Hcount. rewrite Hcount. reflexivity.
  - fold w' in Htriples. rewrite Htriples. reflexivity.
Defined.

(** ** Further properties of the methods *)

Section Further.

Context {Store : Type} (load : Store -> Connection -> list Connection).
Context {Triple TriplesKwargs : Type}.
Context (Connection_triples : Connection -> TriplesKwargs -> list Triple).
Implicit Types (w : World Store) (kw kwargs : Kwargs).

(** What the queries of a direction are, in terms of [keyword_clash]. *)
Lemma direction_queries_clash cls owner d kwargs :
  keyword_clash d kwargs = true ->
  direction_queries cls owner d kwargs = Raise TypeError.
Proof.
  unfold keyword_clash, direction_queries, Conntype_call.
  destruct kwargs as [[x|] [y|] s]; simpl;
    repeat case_bool_decide; simpl; done.
Qed.

Lemma direction_queries_no_clash cls owner d kwargs :
  keyword_clash d kwargs = false ->
  exists c, direction_queries cls owner d kwargs = Ok c /\ length c <= 2.
Proof.
  unfold keyword_clash, direction_queries, Conntype_call.
  destruct kwargs as [[x|] [y|] s]; simpl;
    repeat case_bool_decide; simpl; try done;
    intros _; eexists; (split; [reflexivity | simpl; lia]).
Qed.

(** X1: [Neighbor.set] raises [TypeError] exactly when the keywords give
    [pre_cell] or [post_cell], which the call gives itself; the cache is then
    as before. *)
Theorem Neighbor_set_keyword_clash w a self other kwargs :
  w_props w !! a = Some self ->
  (fst (Neighbor_set a other kwargs w) = Raise TypeError <->
   given (kw_pre_cell kwargs) || given (kw_post_cell kwargs) = true) /\
  (given (kw_pre_cell kwargs) || given (kw_post_cell kwargs) = true ->
   Neighbor_set a other kwargs w = (Raise TypeError, w)).
Proof.
  intros Ha. unfold Neighbor_set, bind, deref, lift, modify, Conntype_call.
  rewrite Ha. destruct kwargs as [[x|] [y|] s]; simpl; try rewrite Ha; simpl;
    (split; [split|]); done.
Qed.

(** X2: [get] and [count] raise [TypeError] exactly when the keywords give an
    endpoint the direction gives as well ([pre_cell] with ['pre'],
    [post_cell] with ['post'], either one with ['either']); the exception
    comes before any query is sent, and the world is as before. *)
Theorem get_count_raise_on_keyword_clash w a self d kw :
  w_props w !! a = Some self ->
  if keyword_clash d kw then
    ConnectionProperty_get load a d kw w = (Raise TypeError, w) /\
    ConnectionProperty_count load a d kw w = (Raise TypeError, w)
  else
    (exists rs w', ConnectionProperty_get load a d kw w = (Ok rs, w')) /\
    (exists n w', ConnectionProperty_count load a d kw w = (Ok n, w')).
Proof.
  intros Ha.
  rewrite (ConnectionProperty_get_run load _ _ _ _ _ Ha).
  rewrite (ConnectionProperty_count_run load _ _ _ _ _ Ha).
  assert (keyword_clash d (mkKwargs (kw_pre_cell kw) (kw_post_cell kw) None)
          = keyword_clash d kw) as Hsame by done.
  destruct (keyword_clash d kw) eqn:Hclash.
  - by rewrite !direction_queries_clash.
  - destruct (direction_queries_no_clash (p_conntype self) (p_owner self) _ _ Hclash)
      as (c & -> & _).
    destruct (direction_queries_no_clash
                (Conntype_contextualize (p_conntype self) (p_context self))
                (p_owner self) _ _ Hsame) as (c' & -> & _).
    split; by do 2 eexists.
Qed.

(** The queries of a direction by two classes of the same context, for
    keywords that give the same endpoints, are the same up to the tag. *)
Lemma direction_queries_same_class cls cls' owner d kwargs :
  ct_context cls = ct_context cls' ->
  direction_queries cls owner d kwargs = direction_queries cls' owner d kwargs.
Proof.
  intros Hctx. unfold direction_queries, Conntype_call. by rewrite Hctx.
Qed.

(** X3: on a property whose class has the context of the property, [count]
    returns the number of relations [get] yields for the same direction and
    keywords once [syntype] is taken out of them, and sends the same queries:
    [count] never filters by [syntype]. *)
Theorem count_is_length_of_get_without_syntype w a self d kw :
  w_props w !! a = Some self ->
  ct_context (p_conntype self) = p_context self ->
  let kwargs := mkKwargs (kw_pre_cell kw) (kw_post_cell kw) None in
  ConnectionProperty_count load a d kw w =
    (Outcome_map length (fst (ConnectionProperty_get load a d kwargs w)),
     snd (ConnectionProperty_get load a d kwargs w)).
Proof.
  intros Ha Hctx kwargs.
  rewrite (ConnectionProperty_get_run load _ _ _ _ _ Ha).
  rewrite (ConnectionProperty_count_run load _ _ _ _ _ Ha).
  rewrite (direction_queries_same_class _ (p_conntype self)) by done.
  by destruct (direction_queries _ _ _ _).
Qed.

(** X4: [Neighbor.get] called with the keyword [pre_cell] raises [TypeError]
    and sends no query when the cache is empty; once a relation is staged the
    same call succeeds, since the cached branch never reads the keywords. *)
Theorem Neighbor_get_pre_cell_keyword w a self kwargs :
  w_props w !! a = Some self ->
  given (kw_pre_cell kwargs) = true ->
  (p_conns self = [] -> Neighbor_get load a kwargs w = (Raise TypeError, w)) /\
  (p_conns self <> [] ->
   Neighbor_get load a kwargs w = (Ok (flat_map post_cell_get (p_conns self)), w)).
Proof.
  intros Ha Hpre. split.
  - intros Hnil. unfold Neighbor_get, bind, deref, lift, Conntype_call.
    rewrite Ha, Hnil. simpl. by destruct (kw_pre_cell kwargs).
  - intros Hne. by apply Neighbor_get_cached.
Qed.

Lemma Neighbor_set_each_run others : forall w a self,
  w_props w !! a = Some self ->
  let cs := map (fun other => mkConnection (ct_context (p_conntype self))
                                (Some (p_owner self)) (Some other) None) others in
  Neighbor_set_each a others w =
    (Ok cs,
     mkWorld (<[a := with_conns self (p_conns self ++ cs)]> (w_props w))
             (w_store w) (w_queries w)).
Proof.
  induction others as [|other rest IH]; intros w a self Ha; simpl.
  - unfold ret. rewrite app_nil_r, with_conns_same, list_insert_id by done.
    by rewrite world_eta.
  - assert (a < length (w_props w)) as Hlt by (by eapply lookup_lt_Some).
    unfold bind at 1.
    rewrite (Neighbor_set_run _ _ self) by done. simpl.
    unfold bind at 1.
    rewrite (IH _ _ (append_conn _ self)) by (by apply list_lookup_insert_eq).
    simpl. unfold ret. rewrite list_insert_insert_eq.
    unfold with_conns, append_conn. simpl. by rewrite <- app_assoc.
Qed.

(** X5: the calls [set(x)] for the cells of a list, in turn, all succeed,
    send no query and leave the store as it is; after them [get] yields what
    it yielded from the cache before, then the cells in the order of the
    calls, duplicates kept. *)
Theorem Neighbor_set_each_then_get w a self others kwargs :
  w_props w !! a = Some self ->
  others <> [] ->
  exists cs w',
    Neighbor_set_each a others w = (Ok cs, w') /\
    length cs = length others /\
    w_store w' = w_store w /\ w_queries w' = w_queries w /\
    Neighbor_get load a kwargs w' =
      (Ok (flat_map post_cell_get (p_conns self) ++ map VCell others), w').
Proof.
  intros Ha Hne.
  assert (a < length (w_props w)) as Hlt by (by eapply lookup_lt_Some).
  set (cs := map (fun other => mkConnection (ct_context (p_conntype self))
                                 (Some (p_owner self)) (Some other) None) others).
  set (self' := with_conns self (p_conns self ++ cs)).
  set (w' := mkWorld (<[a := self']> (w_props w)) (w_store w) (w_queries w)).
  assert (w_props w' !! a = Some self') as Ha' by (by apply list_lookup_insert_eq).
  exists cs, w'. split; [by apply Neighbor_set_each_run|].
  split; [apply length_map|]. split; [done|]. split; [done|].
  rewrite (Neighbor_get_cached load _ _ _ kwargs Ha').
  - assert (flat_map post_cell_get cs = map VCell others) as Hposts.
    { subst cs. clear. induction others as [|x xs IH]; [done|].
      simpl. by rewrite IH. }
    simpl. by rewrite flat_map_app, Hposts.
  - simpl. subst cs. destruct others; [done|]. by destruct (p_conns self).
Qed.

(** X6: whatever the direction and the keywords, [get] and [count] leave
    every property object and the store as they are and only add queries to
    the log: the same number for both, two at most. *)
Theorem get_count_only_send_queries w a d kw :
  let w1 := snd (ConnectionProperty_get load a d kw w) in
  let w2 := snd (ConnectionProperty_count load a d kw w) in
  w_props w1 = w_props w /\ w_store w1 = w_store w /\
  w_props w2 = w_props w /\ w_store w2 = w_store w /\
  exists c1 c2,
    w_queries w1 = w_queries w ++ c1 /\ w_queries w2 = w_queries w ++ c2 /\
    length c1 = length c2 /\ length c1 <= 2.
Proof.
  destruct (w_props w !! a) as [self|] eqn:Ha; simpl.
  - rewrite (ConnectionProperty_get_run load _ _ _ _ _ Ha).
    rewrite (ConnectionProperty_count_run load _ _ _ _ _ Ha).
    unfold direction_queries, Conntype_call.
    destruct kw as [[x|] [y|] s]; simpl; repeat case_bool_decide; simpl;
      repeat split;
      first [ by exists [], []; rewrite app_nil_r; repeat split; simpl; lia
            | by do 2 eexists; repeat split; simpl; lia ].
  - rewrite get_dangling, count_dangling by done. simpl.
    repeat split. exists [], []. rewrite app_nil_r. repeat split; simpl; lia.
Qed.

(** ** Degrees and counts *)

Lemma count_syntype_le tag cs : count_syntype tag cs <= length cs.
Proof. unfold count_syntype. apply List.filter_length_le. Qed.

Lemma count_syntype_app tag cs cs' :
  count_syntype tag (cs ++ cs') = count_syntype tag cs + count_syntype tag cs'.
Proof. unfold count_syntype. by rewrite List.filter_app, length_app. Qed.

Lemma length_remove_dups (cs : list Connection) :
  length (remove_dups cs) <= length cs.
Proof.
  induction cs as [|c cs IH]; simpl; [done|].
  destruct (decide_rel elem_of c cs); simpl; lia.
Qed.

(** X7: on a neuron whose connection property has a class of its own
    context, [GJ_degree] is at most [count('pre')] and [Syn_degree] is at
    most [count('either')], all four calls succeeding. *)
Theorem degrees_at_most_counts w self a p :
  connection self = Some a -> w_props w !! a = Some p ->
  ct_context (p_conntype p) = p_context p ->
  exists g s n_pre n_either,
    fst (GJ_degree load self w) = Ok g /\
    fst (Syn_degree load self w) = Ok s /\
    fst (ConnectionProperty_count load a "pre" no_kwargs w) = Ok n_pre /\
    fst (ConnectionProperty_count load a "either" no_kwargs w) = Ok n_either /\
    g <= n_pre /\ s <= n_either.
Proof.
  intros Hc Ha Hctx. do 4 eexists.
  rewrite (GJ_degree_run load _ _ _ _ Hc Ha).
  rewrite (Syn_degree_run load _ _ _ _ Hc Ha).
  rewrite (count_pre_explicit load _ _ _ _ Ha) by done.
  rewrite (count_either_explicit load _ _ _ _ Ha) by done.
  rewrite Hctx. simpl. repeat split.
  - etrans; [apply count_syntype_le | apply length_remove_dups].
  - rewrite <- length_app. apply count_syntype_le.
Qed.

(** X8: [Syn_degree] is the number of relations tagged ['send'] in the
    answer to the pre query plus their number in the answer to the post
    query: a relation that is in both answers is counted twice. *)
Theorem Syn_degree_adds_directions w self a p :
  connection self = Some a -> w_props w !! a = Some p ->
  let cls := p_conntype p in
  fst (Syn_degree load self w) =
    Ok (count_syntype "send"
          (load (w_store w) (mkConnection (ct_context cls) (Some (p_owner p)) None None))
        + count_syntype "send"
            (load (w_store w) (mkConnection (ct_context cls) None (Some (p_owner p)) None))).
Proof.
  intros Hc Ha. simpl. rewrite (Syn_degree_run load _ _ _ _ Hc Ha). simpl.
  by rewrite count_syntype_app.
Qed.

(** ** Staging is local to a property *)

(** The four reading methods on the property at [b] answer from that object
    and the store alone. *)
Lemma readers_depend_on_own_object w w' b d kw kwargs tk :
  w_props w' !! b = w_props w !! b -> w_store w' = w_store w ->
  fst (ConnectionProperty_get load b d kw w') = fst (ConnectionProperty_get load b d kw w) /\
  fst (ConnectionProperty_count load b d kw w') =
    fst (ConnectionProperty_count load b d kw w) /\
  fst (Neighbor_get load b kwargs w') = fst (Neighbor_get load b kwargs w) /\
  fst (ConnectionProperty_triples Connection_triples b tk w') =
    fst (ConnectionProperty_triples Connection_triples b tk w) /\
  fst (Neighbor_triples Connection_triples b tk w') =
    fst (Neighbor_triples Connection_triples b tk w).
Proof.
  intros Hb Hs. destruct (w_props w !! b) as [p|] eqn:Hp.
  - rewrite !(ConnectionProperty_get_run load _ _ p) by done.
    rewrite !(ConnectionProperty_count_run load _ _ p) by done.
    unfold Neighbor_get, ConnectionProperty_triples, Neighbor_triples,
      bind, deref, lift, Connection_load, ret.
    rewrite Hb, Hp, Hs. repeat split.
    + by destruct (direction_queries _ _ _ _).
    + by destruct (direction_queries _ _ _ _).
    + case_bool_decide; [done|].
      destruct (Conntype_call _ _ _ _); simpl; [by rewrite Hs | done].
  - rewrite !get_dangling, !count_dangling by done.
    unfold Neighbor_get, ConnectionProperty_triples, Neighbor_triples, bind, deref.
    by rewrite Hb, Hp.
Qed.

Lemma Neighbor_set_elsewhere w a b other kwargs :
  a <> b ->
  let w' := snd (Neighbor_set a other kwargs w) in
  w_props w' !! b = w_props w !! b /\ w_store w' = w_store w /\
  w_queries w' = w_queries w /\ length (w_props w') = length (w_props w).
Proof.
  intros Hab. unfold Neighbor_set, bind, deref, lift, modify.
  destruct (w_props w !! a) as [self|] eqn:Ha; [|done].
  destruct (Conntype_call _ _ _ _); [|done]. simpl. rewrite Ha. simpl.
  rewrite list_lookup_insert_ne by done. by rewrite length_insert.
Qed.

Lemma ConnectionProperty_set_elsewhere w a b conn :
  a <> b ->
  let w' := snd (ConnectionProperty_set a conn w) in
  w_props w' !! b = w_props w !! b /\ w_store w' = w_store w /\
  w_queries w' = w_queries w /\ length (w_props w') = length (w_props w).
Proof.
  intros Hab. unfold ConnectionProperty_set, bind, deref, lift, modify.
  destruct (w_props w !! a) as [self|] eqn:Ha; [|done].
  destruct (assert_isinstance _ _); [|done]. simpl. rewrite Ha. simpl.
  rewrite list_lookup_insert_ne by done. by rewrite length_insert.
Qed.

(** X9: a [set] on one property, whether it succeeds or raises, changes no
    other property object, nor the store, nor the log of queries; so [get],
    [count] and [triples] of every other property answer as before.  What is
    staged through [neighbor] never shows in [connection], and the other way
    round. *)
Theorem set_is_local_to_its_property w a b other conn kwargs d kw kwargs' tk :
  a <> b ->
  let w1 := snd (Neighbor_set a other kwargs w) in
  let w2 := snd (ConnectionProperty_set a conn w) in
  (w_props w1 !! b = w_props w !! b /\ w_store w1 = w_store w /\
   w_queries w1 = w_queries w /\
   fst (ConnectionProperty_get load b d kw w1) = fst (ConnectionProperty_get load b d kw w) /\
   fst (ConnectionProperty_count load b d kw w1) =
     fst (ConnectionProperty_count load b d kw w) /\
   fst (ConnectionProperty_triples Connection_triples b tk w1) =
     fst (ConnectionProperty_triples Connection_triples b tk w)) /\
  (w_props w2 !! b = w_props w !! b /\ w_store w2 = w_store w /\
   w_queries w2 = w_queries w /\
   fst (Neighbor_get load b kwargs' w2) = fst (Neighbor_get load b kwargs' w) /\
   fst (Neighbor_triples Connection_triples b tk w2) =
     fst (Neighbor_triples Connection_triples b tk w)).
Proof.
  intros Hab w1 w2.
  destruct (Neighbor_set_elsewhere w a b other kwargs Hab) as (Hb1 & Hs1 & Hq1 & _).
  destruct (ConnectionProperty_set_elsewhere w a b conn Hab) as (Hb2 & Hs2 & Hq2 & _).
  destruct (readers_depend_on_own_object w w1 b d kw kwargs' tk Hb1 Hs1)
    as (Hg1 & Hc1 & _ & Ht1 & _).
  destruct (readers_depend_on_own_object w w2 b d kw kwargs' tk Hb2 Hs2)
    as (_ & _ & Hn2 & _ & Ht2).
  done.
Qed.

(** ** Constructed neurons *)

Lemma Neuron_init_run name context w :
  let a := length (w_props w) in
  Neuron_init name context w =
    (Ok (mkNeuron name context (Some a) (Some (S a))),
     mkWorld ((w_props w
               ++ [mkProperty "neighbor" name context [] (mkConntype context)])
              ++ [mkProperty "connection" name context [] Connection_class])
             (w_store w) (w_queries w)).
Proof.
  unfold Neuron_init, Neighbor_init, ConnectionProperty_init, bind, alloc, ret.
  simpl. rewrite length_app. simpl. by rewrite Nat.add_1_r.
Qed.

(** X10: a neuron that [Neuron.__init__] has built has nothing staged: the
    constructor sends no query and keeps every property object that existed;
    [triples] of its two properties yield nothing; and [neighbor.get()] goes
    to the store, with one query whose pre endpoint is the neuron. *)
Theorem constructed_neuron_has_nothing_staged name context w tk :
  exists n a b w1,
    Neuron_init name context w = (Ok n, w1) /\
    neighbor n = Some a /\ connection n = Some b /\ a <> b /\
    (forall i p, w_props w !! i = Some p -> w_props w1 !! i = Some p) /\
    w_store w1 = w_store w /\ w_queries w1 = w_queries w /\
    Neighbor_triples Connection_triples a tk w1 = (Ok [], w1) /\
    ConnectionProperty_triples Connection_triples b tk w1 = (Ok [], w1) /\
    exists q,
      pre_cell q = Some name /\ post_cell q = None /\ syntype q = None /\
      Neighbor_get load a no_kwargs w1 =
        (Ok (map post_cell_call (load (w_store w) q)),
         mkWorld (w_props w1) (w_store w) (w_queries w ++ [q])).
Proof.
  do 4 eexists. split; [apply Neuron_init_run|]. simpl.
  set (pn := mkProperty "neighbor" name context [] (mkConntype context)).
  set (pc := mkProperty "connection" name context [] Connection_class).
  assert (((w_props w ++ [pn]) ++ [pc]) !! length (w_props w) = Some pn) as Hn.
  { rewrite lookup_app_l by (rewrite length_app; simpl; lia).
    by rewrite list_lookup_middle. }
  assert (((w_props w ++ [pn]) ++ [pc]) !! S (length (w_props w)) = Some pc) as Hc.
  { rewrite list_lookup_middle; [done|]. rewrite length_app. simpl. lia. }
  split; [done|]. split; [done|]. split; [lia|]. split.
  { intros i p Hi. by do 2 apply lookup_app_l_Some. }
  split; [done|]. split; [done|]. split; [|split].
  - unfold Neighbor_triples, bind, deref, ret. simpl. by rewrite Hn.
  - unfold ConnectionProperty_triples, bind, deref, ret. simpl. by rewrite Hc.
  - eexists. split; [|split; [|split]]; cycle 3.
    + unfold Neighbor_get, bind, deref, lift, Connection_load, ret. simpl.
      rewrite Hn. simpl. reflexivity.
    + done.
    + done.
    + done.
Qed.

(** X11: [contextualize] on a neuron that [Neuron.__init__] has built never
    raises: the neighbor attribute is there, so the answer is a proxy, over
    two new property objects, and the properties of the neuron are as
    before. *)
Theorem constructed_neuron_contextualizes name context context' w :
  exists n a b w1 w2,
    Neuron_init name context w = (Ok n, w1) /\
    neighbor n = Some a /\ connection n = Some b /\
    Neuron_contextualize n context' w1 =
      (Ok (Proxied (mkNeuronProxy (a + 2) (b + 2)
                      (mkNeuron name context' (Some a) (Some b)))), w2) /\
    w_props w2 !! a = w_props w1 !! a /\ w_props w2 !! b = w_props w1 !! b /\
    (p_context <$> w_props w2 !! (a + 2)) = Some context' /\
    (p_context <$> w_props w2 !! (b + 2)) = Some context' /\
    w_store w2 = w_store w /\ w_queries w2 = w_queries w.
Proof.
  set (a := length (w_props w)).
  set (pn := mkProperty "neighbor" name context [] (mkConntype context)).
  set (pc := mkProperty "connection" name context [] Connection_class).
  set (props1 := (w_props w ++ [pn]) ++ [pc]).
  set (pn' := mkProperty "neighbor" name context' [] (mkConntype context)).
  set (pc' := mkProperty "connection" name context' [] Connection_class).
  set (w1 := mkWorld props1 (w_store w) (w_queries w)).
  set (w2 := mkWorld ((props1 ++ [pn']) ++ [pc']) (w_store w) (w_queries w)).
  assert (length props1 = a + 2) as Hlen
    by (subst props1 a; rewrite !length_app; simpl; lia).
  assert (props1 !! a = Some pn) as Hn.
  { subst props1. rewrite lookup_app_l by (rewrite length_app; simpl; lia).
    by rewrite list_lookup_middle. }
  assert (props1 !! S a = Some pc) as Hc.
  { subst props1. rewrite list_lookup_middle; [done|].
    rewrite length_app. simpl. subst a. lia. }
  exists (mkNeuron name context (Some a) (Some (S a))), a, (S a), w1, w2.
  split; [apply Neuron_init_run|]. split; [done|]. split; [done|]. split.
  { unfold Neuron_contextualize, Cell_contextualize, bind at 1, ret at 1. simpl.
    unfold bind, getattr, ret.
    rewrite (Property_contextualize_run w1 a pn) by done.
    rewrite (Property_contextualize_run _ (S a) pc)
      by (simpl; by apply lookup_app_l_Some).
    simpl. rewrite length_app, Hlen. simpl.
    by replace (a + 2 + 1) with (S (a + 2)) by lia. }
  split.
  { simpl. rewrite Hn. by do 2 apply lookup_app_l_Some. }
  split.
  { simpl. rewrite Hc. by do 2 apply lookup_app_l_Some. }
  split.
  { simpl. rewrite lookup_app_l by (rewrite length_app, Hlen; simpl; lia).
    rewrite <- Hlen. by rewrite list_lookup_middle. }
  split; [|done].
  simpl. rewrite list_lookup_middle; [done|]. rewrite length_app, Hlen. simpl. lia.
Qed.

(** ** Nothing is memoized *)

(** X12: neither [get] keeps what the store answered: a second call, right
    after the first, has the same outcome and sends the same queries again,
    and the caches are as before. *)
Theorem get_asks_the_store_again w a self d kw kwargs :
  w_props w !! a = Some self ->
  (let r1 := ConnectionProperty_get load a d kw w in
   let r2 := ConnectionProperty_get load a d kw (snd r1) in
   fst r2 = fst r1 /\ w_props (snd r2) = w_props w /\
   exists c, w_queries (snd r1) = w_queries w ++ c /\
             w_queries (snd r2) = (w_queries w ++ c) ++ c) /\
  (let r1 := Neighbor_get load a kwargs w in
   let r2 := Neighbor_get load a kwargs (snd r1) in
   fst r2 = fst r1 /\ w_props (snd r2) = w_props w /\
   exists c, w_queries (snd r1) = w_queries w ++ c /\
             w_queries (snd r2) = (w_queries w ++ c) ++ c).
Proof.
  intros Ha. split.
  - simpl. rewrite (ConnectionProperty_get_run load w _ _ _ _ Ha).
    destruct (direction_queries _ _ _ _) as [c|e] eqn:Hq; simpl.
    + rewrite (ConnectionProperty_get_run load _ _ self) by done.
      rewrite Hq. simpl. repeat split. by exists c.
    + rewrite (ConnectionProperty_get_run load w _ _ _ _ Ha), Hq. simpl.
      repeat split. exists []. by rewrite !app_nil_r.
  - simpl. unfold Neighbor_get, bind, deref, lift, Connection_load, ret.
    rewrite Ha. case_bool_decide.
    + simpl. rewrite Ha. rewrite bool_decide_eq_true_2 by done. simpl.
      repeat split. exists []. by rewrite !app_nil_r.
    + destruct (Conntype_call _ _ _ _) as [q|e] eqn:Hq; simpl.
      * rewrite Ha. rewrite bool_decide_eq_false_2 by done. rewrite Hq. simpl.
        repeat split. by exists [q].
      * rewrite Ha. rewrite bool_decide_eq_false_2 by done. rewrite Hq. simpl.
        repeat split. exists []. by rewrite !app_nil_r.
Qed.

End Further.

(** ** The further properties on the neuron AVAL *)

(** X1 on AVAL: [neighbor.set('AVBL', post_cell='PVCL')] raises and stages
    nothing. *)
Lemma Neighbor_set_keyword_clash_witness :
  w_props AVAL_world !! 0 = Some AVAL_neighbor /\
  Neighbor_set 0 "AVBL" (mkKwargs None (Some "PVCL") None) AVAL_world =
    (Raise TypeError, AVAL_world).
Proof.
  split; [reflexivity|].
  destruct (Neighbor_set_keyword_clash AVAL_world 0 AVAL_neighbor "AVBL"
              (mkKwargs None (Some "PVCL") None) eq_refl) as (_ & Hclash).
  exact (Hclash eq_refl).
Defined.

(** X2 on AVAL: [get('either', post_cell='AVBL')] raises though its pre
    query alone would be well formed, and [get('pre', post_cell='AVBL')]
    succeeds. *)
Lemma get_count_raise_on_keyword_clash_witness :
  w_props AVAL_world !! 1 = Some AVAL_connection /\
  (ConnectionProperty_get ListStore_load 1 "either" (mkKwargs None (Some "AVBL") None)
     AVAL_world = (Raise TypeError, AVAL_world) /\
   ConnectionProperty_count ListStore_load 1 "either" (mkKwargs None (Some "AVBL") None)
     AVAL_world = (Raise TypeError, AVAL_world)) /\
  fst (ConnectionProperty_get ListStore_load 1 "pre" (mkKwargs None (Some "AVBL") None)
         AVAL_world) =
    Ok [mkConnection (Scope "data") (Some "AVAL") (Some "AVBL") (Some "send")].
Proof.
  split; [reflexivity|]. split; [|reflexivity].
  exact (get_count_raise_on_keyword_clash ListStore_load AVAL_world 1 AVAL_connection
           "either" (mkKwargs None (Some "AVBL") None) eq_refl).
Defined.

(** X3 on AVAL: [count('pre', syntype='send')] is 3, the number of
    relations [get('pre')] yields, not the 2 that [get('pre',
    syntype='send')] yields. *)
Lemma count_is_length_of_get_without_syntype_witness :
  (w_props AVAL_world !! 1 = Some AVAL_connection /\
   ct_context (p_conntype AVAL_connection) = p_context AVAL_connection) /\
  fst (ConnectionProperty_count ListStore_load 1 "pre" (mkKwargs None None (Some "send"))
         AVAL_world) = Ok 3 /\
  Outcome_map length
    (fst (ConnectionProperty_get ListStore_load 1 "pre" (mkKwargs None None (Some "send"))
            AVAL_world)) = Ok 2.
Proof.
  split; [by split|]. split; [|reflexivity].
  rewrite (count_is_length_of_get_without_syntype ListStore_load AVAL_world 1
             AVAL_connection "pre" (mkKwargs None None (Some "send")) eq_refl eq_refl).
  reflexivity.
Defined.

(** X4 on AVAL: [neighbor.get(pre_cell='AVBL')] raises on the fresh neuron
    and succeeds after [neighbor.set('PVCL')]. *)
Lemma Neighbor_get_pre_cell_keyword_witness :
  let kwargs := mkKwargs (Some "AVBL") None None in
  let staged := mkConnection NoScope (Some "AVAL") (Some "PVCL") None in
  let w1 := mkWorld [append_conn staged AVAL_neighbor; AVAL_connection] persisted [] in
  Neighbor_get ListStore_load 0 kwargs AVAL_world = (Raise TypeError, AVAL_world) /\
  Neighbor_get ListStore_load 0 kwargs w1 = (Ok [VCell "PVCL"], w1).
Proof.
  intros kwargs staged w1. split.
  - destruct (Neighbor_get_pre_cell_keyword ListStore_load AVAL_world 0 AVAL_neighbor
                kwargs eq_refl eq_refl) as (Hempty & _).
    exact (Hempty eq_refl).
  - destruct (Neighbor_get_pre_cell_keyword ListStore_load w1 0
                (append_conn staged AVAL_neighbor) kwargs eq_refl eq_refl)
      as (_ & Hcached).
    apply Hcached. discriminate.
Defined.

(** X5 on AVAL: after [set('AVBL')], [set('PVCL')], [set('AVBL')] the
    neighbors are these three, in this order. *)
Lemma Neighbor_set_each_then_get_witness :
  w_props AVAL_world !! 0 = Some AVAL_neighbor /\
  exists cs w',
    Neighbor_set_each 0 ["AVBL"; "PVCL"; "AVBL"] AVAL_world = (Ok cs, w') /\
    Neighbor_get ListStore_load 0 no_kwargs w' =
      (Ok [VCell "AVBL"; VCell "PVCL"; VCell "AVBL"], w').
Proof.
  split; [reflexivity|].
  destruct (Neighbor_set_each_then_get ListStore_load AVAL_world 0 AVAL_neighbor
              ["AVBL"; "PVCL"; "AVBL"] no_kwargs eq_refl)
    as (cs & w' & Hset & _ & _ & _ & Hget); [discriminate|].
  exists cs, w'. split; [exact Hset | exact Hget].
Defined.

(** X7 on AVAL: the degrees 0 and 2 against the counts 3 and 5. *)
Lemma degrees_at_most_counts_witness :
  (connection AVAL = Some 1 /\ w_props AVAL_world !! 1 = Some AVAL_connection) /\
  exists g s n_pre n_either,
    fst (GJ_degree ListStore_load AVAL AVAL_world) = Ok g /\
    fst (Syn_degree ListStore_load AVAL AVAL_world) = Ok s /\
    fst (ConnectionProperty_count ListStore_load 1 "pre" no_kwargs AVAL_world) = Ok n_pre /\
    fst (ConnectionProperty_count ListStore_load 1 "either" no_kwargs AVAL_world) =
      Ok n_either /\
    g <= n_pre /\ s <= n_either.
Proof.
  split; [by split|].
  exact (degrees_at_most_counts ListStore_load AVAL_world AVAL 1 AVAL_connection
           eq_refl eq_refl eq_refl).
Defined.

(** X8 on a store whose one relation goes from AVAL to AVAL with the tag
    ['send']: [Syn_degree] is 2. *)
Lemma Syn_degree_adds_directions_witness :
  let loop := mkConnection NoScope (Some "AVAL") (Some "AVAL") (Some "send") in
  let w := mkWorld [AVAL_neighbor; AVAL_connection] [loop] [] in
  (connection AVAL = Some 1 /\ w_props w !! 1 = Some AVAL_connection) /\
  fst (Syn_degree ListStore_load AVAL w) = Ok 2.
Proof.
  intros loop w. split; [by split|].
  rewrite (Syn_degree_adds_directions ListStore_load w AVAL 1 AVAL_connection
             eq_refl eq_refl).
  reflexivity.
Defined.

(** X9 on AVAL: after [neighbor.set('AVBL')] the connection property has
    no triples and counts as before. *)
Lemma set_is_local_to_its_property_witness :
  let w1 := snd (Neighbor_set 0 "AVBL" no_kwargs AVAL_world) in
  0 <> 1 /\
  p_conns <$> w_props w1 !! 0 =
    Some [mkConnection NoScope (Some "AVAL") (Some "AVBL") None] /\
  w_props w1 !! 1 = Some AVAL_connection /\
  fst (ConnectionProperty_count ListStore_load 1 "either" no_kwargs w1) = Ok 5 /\
  fst (ConnectionProperty_triples Connection_facts 1 tt w1) = Ok [].
Proof.
  intros w1. split; [discriminate|]. split; [reflexivity|].
  destruct (set_is_local_to_its_property ListStore_load Connection_facts AVAL_world
              0 1 "AVBL" VNone no_kwargs "either" no_kwargs no_kwargs tt)
    as ((Hb & _ & _ & _ & Hcount & Htriples) & _); [discriminate|].
  fold w1 in Hb, Hcount, Htriples.
  split; [exact Hb|]. split.
  - rewrite Hcount. reflexivity.
  - rewrite Htriples. reflexivity.
Defined.

(** X12 on AVAL: two calls of [connection.get('either')] in a row send the
    pre and the post query twice. *)
Lemma get_asks_the_store_again_witness :
  let q_pre := mkConnection NoScope (Some "AVAL") None None in
  let q_post := mkConnection NoScope None (Some "AVAL") None in
  let r1 := ConnectionProperty_get ListStore_load 1 "either" no_kwargs AVAL_world in
  let r2 := ConnectionProperty_get ListStore_load 1 "either" no_kwargs (snd r1) in
  w_props AVAL_world !! 1 = Some AVAL_connection /\
  fst r2 = fst r1 /\
  w_queries (snd r2) = [q_pre; q_post; q_pre; q_post].
Proof.
  intros q_pre q_post r1 r2. split; [reflexivity|].
  destruct (get_asks_the_store_again ListStore_load AVAL_world 1 AVAL_connection
              "either" no_kwargs no_kwargs eq_refl) as ((Hsame & _) & _).
  split; [exact Hsame | reflexivity].
Defined.
